(** * openclaw-github-skill: the GitHub action adapters, embedded and verified

    The repository ships the same eight GitHub actions twice: a JavaScript
    rendering ([index.js]) and a TypeScript rendering (the [api] module).
    Both are embedded below, function by function, over

    - a model of the JavaScript values that [response.json()] can produce,
      with the dynamic behaviour the adapters rely on (truthiness, [||],
      [?.], template-literal conversion, property access that throws on
      [null]/[undefined], array and string methods);
    - a state-and-exception monad whose state is the process: the
      environment variables, the module-level [cachedUser], the script of
      upstream answers still to come, and the log of requests sent.

    Conventions of the model.  Numbers are integers (counts, ids, status
    codes).  Strings are byte strings and [toLowerCase], [substring] and
    [length] act on ASCII.  A thrown [TypeError] or [SyntaxError] carries no
    message (the text is engine specific); an [Error] created by the adapters
    carries the message written in the source. *)

From Stdlib Require Import String Ascii List ZArith NArith Bool Lia DecimalString.
Import ListNotations.
Local Open Scope string_scope.
Local Open Scope Z_scope.

Set Warnings "-register-all".

(* ================================================================== *)
(** ** JavaScript values *)
(* ================================================================== *)

Module Js.

Inductive value : Type :=
| VUndef : value
| VNull : value
| VBool : bool -> value
| VNum : Z -> value
| VStr : string -> value
| VArr : list value -> value
| VObj : list (string * value) -> value.

(** What a JavaScript [throw] carries in this program. *)
Inductive error : Type :=
| Error : string -> error      (* [throw new Error(msg)] in the adapters *)
| TypeError : error            (* property of null/undefined, call of a non-function *)
| SyntaxError : error          (* [response.json()] on a body that is not JSON *)
| NetworkError : error.        (* [fetch] rejected by the transport *)

(** Completion of a synchronous computation. *)
Inductive completion (A : Type) : Type :=
| Return : A -> completion A
| Throw : error -> completion A.
Arguments Return {A} _.
Arguments Throw {A} _.

Definition cbind {A B} (c : completion A) (k : A -> completion B) : completion B :=
  match c with
  | Return a => k a
  | Throw e => Throw e
  end.

(** [ToBoolean]. *)
Definition truthy (v : value) : bool :=
  match v with
  | VUndef | VNull => false
  | VBool b => b
  | VNum n => negb (n =? 0)
  | VStr s => negb (String.eqb s "")
  | VArr _ | VObj _ => true
  end.

(** [a || b]. *)
Definition or_else (a b : value) : value := if truthy a then a else b.

Definition nullish (v : value) : bool :=
  match v with VUndef | VNull => true | _ => false end.

(** Decimal rendering of an integer, as [String(n)] and a template literal
    give it for a safe integer (below 2^53 in absolute value); larger
    numbers, which JavaScript rounds and from 1e21 on prints in exponent
    form, are outside the model. *)
Definition num_str (n : Z) : string := NilZero.string_of_int (Z.to_int n).

Fixpoint join (sep : string) (l : list string) : string :=
  match l with
  | [] => ""
  | [x] => x
  | x :: r => x ++ sep ++ join sep r
  end.

(** [ToString], as a template literal applies it. *)
Fixpoint to_str (v : value) : string :=
  match v with
  | VUndef => "undefined"
  | VNull => "null"
  | VBool true => "true"
  | VBool false => "false"
  | VNum n => num_str n
  | VStr s => s
  | VArr l =>
      join "," (map (fun x => match x with
                              | VUndef | VNull => ""
                              | _ => to_str x
                              end) l)
  | VObj _ => "[object Object]"
  end.

Fixpoint lookup (k : string) (fs : list (string * value)) : option value :=
  match fs with
  | [] => None
  | (k', v) :: r => if String.eqb k k' then Some v else lookup k r
  end.

(** [v.k] for the field names the adapters read (none of them is a built-in
    property of strings, arrays, numbers or booleans). *)
Definition get (v : value) (k : string) : completion value :=
  match v with
  | VUndef | VNull => Throw TypeError
  | VObj fs => Return (match lookup k fs with Some x => x | None => VUndef end)
  | _ => Return VUndef
  end.

(** [v?.k]. *)
Definition get_opt (v : value) (k : string) : completion value :=
  if nullish v then Return VUndef else get v k.

(** Assignment of one property of an object literal under construction:
    an existing key keeps its position and takes the new value. *)
Fixpoint set_field (k : string) (x : value) (fs : list (string * value))
  : list (string * value) :=
  match fs with
  | [] => [(k, x)]
  | (k', v) :: r =>
      if String.eqb k k' then (k', x) :: r else (k', v) :: set_field k x r
  end.

(** [{ ...fs, ...extra }], for keys that are not integer indices (an object
    enumerates those first, in ascending order, wherever they were
    written). *)
Definition spread (fs extra : list (string * value)) : list (string * value) :=
  fold_left (fun acc kv => set_field (fst kv) (snd kv) acc) extra fs.

(** *** Strings *)

(** [s.toLowerCase()] on the bytes of an ASCII string: the letters A to Z
    are folded, every other byte is kept.  JavaScript also folds letters
    outside ASCII; strings holding such letters are outside the model. *)
Definition lower_ascii (c : ascii) : ascii :=
  let n := N_of_ascii c in
  if ((65 <=? n) && (n <=? 90))%N then ascii_of_N (n + 32) else c.

Fixpoint toLowerCase (s : string) : string :=
  match s with
  | EmptyString => EmptyString
  | String c r => String (lower_ascii c) (toLowerCase r)
  end.

(** [s.substring(0, n)] for a literal [n >= 0]. *)
Definition substring0 (n : nat) (s : string) : string := String.substring 0 n s.

Definition LF : ascii := ascii_of_nat 10.

(** [s.split('\n')]: the pieces between line feeds; never empty. *)
Fixpoint split_lf (s : string) : list string :=
  match s with
  | EmptyString => [EmptyString]
  | String c r =>
      if Ascii.eqb c LF then EmptyString :: split_lf r
      else match split_lf r with
           | [] => [String c EmptyString]
           | p :: ps => String c p :: ps
           end
  end.

(** [a[0]] on an array of strings. *)
Definition index0 (l : list string) : value :=
  match l with
  | [] => VUndef
  | x :: _ => VStr x
  end.

(** *** [slice(0, end)] *)

(** Number of elements [slice(0, e)] keeps out of [len]: a negative [e]
    counts from the end. *)
Definition slice_count (len : nat) (e : Z) : nat :=
  Z.to_nat (if e <? 0 then Z.max (Z.of_nat len + e) 0
            else Z.min e (Z.of_nat len)).

Definition slice0 {A} (e : Z) (l : list A) : list A :=
  firstn (slice_count (length l) e) l.

Definition str_slice0 (e : Z) (s : string) : string :=
  String.substring 0 (slice_count (String.length s) e) s.

(** [v.slice(0, e)]: arrays and strings have the method. *)
Definition js_slice (v : value) (e : Z) : completion value :=
  match v with
  | VArr l => Return (VArr (slice0 e l))
  | VStr s => Return (VStr (str_slice0 e s))
  | _ => Throw TypeError
  end.

(** [v.length]. *)
Definition js_length (v : value) : completion value :=
  match v with
  | VUndef | VNull => Throw TypeError
  | VArr l => Return (VNum (Z.of_nat (length l)))
  | VStr s => Return (VNum (Z.of_nat (String.length s)))
  | VObj fs => Return (match lookup "length" fs with Some x => x | None => VUndef end)
  | _ => Return VUndef
  end.

(** *** Callbacks over arrays *)

Fixpoint map_c {A B} (f : A -> completion B) (l : list A) : completion (list B) :=
  match l with
  | [] => Return []
  | x :: r =>
      cbind (f x) (fun y => cbind (map_c f r) (fun ys => Return (y :: ys)))
  end.

Fixpoint filter_c {A} (p : A -> completion bool) (l : list A) : completion (list A) :=
  match l with
  | [] => Return []
  | x :: r =>
      cbind (p x) (fun b =>
      cbind (filter_c p r) (fun ys => Return (if b then x :: ys else ys)))
  end.

(** [v.map(f)]: only arrays have the method. *)
Definition js_map (v : value) (f : value -> completion value) : completion value :=
  match v with
  | VArr l => cbind (map_c f l) (fun ys => Return (VArr ys))
  | _ => Throw TypeError
  end.

(** [v.filter(p)]. *)
Definition js_filter (v : value) (p : value -> completion bool) : completion value :=
  match v with
  | VArr l => cbind (filter_c p l) (fun ys => Return (VArr ys))
  | _ => Throw TypeError
  end.

(** [v.toLowerCase()], [v.substring(0, n)], [v.split('\n')[0]] on a value
    that has to be a string for the method to exist. *)
Definition js_toLowerCase (v : value) : completion value :=
  match v with
  | VStr s => Return (VStr (toLowerCase s))
  | _ => Throw TypeError
  end.

Definition js_substring0 (v : value) (n : nat) : completion value :=
  match v with
  | VStr s => Return (VStr (substring0 n s))
  | _ => Throw TypeError
  end.

Definition js_first_line (v : value) : completion value :=
  match v with
  | VStr s => Return (index0 (split_lf s))
  | _ => Throw TypeError
  end.

(** [a === b] where one side is known to be a string. *)
Definition strict_eq_str (a : value) (s : string) : bool :=
  match a with
  | VStr t => String.eqb t s
  | _ => false
  end.

(** *** [encodeURIComponent] on a byte string *)

Definition uri_unreserved (c : ascii) : bool :=
  let n := N_of_ascii c in
  (((48 <=? n) && (n <=? 57)) || ((65 <=? n) && (n <=? 90))
   || ((97 <=? n) && (n <=? 122))
   || existsb (N.eqb n) [45; 95; 46; 33; 126; 42; 39; 40; 41])%N.

Definition hex_digit (n : N) : ascii :=
  if (n <? 10)%N then ascii_of_N (48 + n) else ascii_of_N (55 + n).

Fixpoint encodeURIComponent (s : string) : string :=
  match s with
  | EmptyString => EmptyString
  | String c r =>
      if uri_unreserved c then String c (encodeURIComponent r)
      else
        let n := N_of_ascii c in
        String "%" (String (hex_digit (n / 16)) (String (hex_digit (n mod 16))
          (encodeURIComponent r)))
  end.

End Js.
Import Js.

(* ================================================================== *)
(** ** The process and the network *)
(* ================================================================== *)

Module Net.

Definition headers := list (string * string).

(** [h[k] = v] on a header object. *)
Fixpoint set_header (k v : string) (h : headers) : headers :=
  match h with
  | [] => [(k, v)]
  | (k', v') :: r =>
      if String.eqb k k' then (k', v) :: r else (k', v') :: set_header k v r
  end.

(** One call of [fetch]: method, URL, headers and, for a POST, the object
    handed to [JSON.stringify]. *)
Record request : Type := {
  meth : string;
  url : string;
  hdrs : headers;
  body : option value
}.

(** An HTTP response: [body_json] is [None] when the body is not JSON (then
    [response.json()] rejects). *)
Record response : Type := {
  status : Z;
  body_json : option value
}.

(** [response.ok], as the Fetch standard defines it. *)
Definition ok (r : response) : bool := (200 <=? status r) && (status r <=? 299).

(** What the transport does with one request. *)
Inductive answer : Type :=
| Responds : response -> answer
| Fails : answer.

(** [process.env], restricted to the two variables the program reads. *)
Record environment : Type := {
  GITHUB_TOKEN : option string;
  GITHUB_USERNAME : option string
}.

Record process : Type := {
  env : environment;
  cachedUser : value;        (* the module-level [let cachedUser = null] *)
  upstream : list answer;    (* answers the upstream will give, in order *)
  sent : list request        (* requests issued so far, oldest first *)
}.

(** Asynchronous computations: they change the process and complete with a
    value or a throw; the process keeps its changes when they throw. *)
Definition M (A : Type) : Type := process -> completion A * process.

Definition ret {A} (a : A) : M A := fun p => (Return a, p).
Definition throw {A} (e : error) : M A := fun p => (Throw e, p).
Definition bind {A B} (c : M A) (k : A -> M B) : M B :=
  fun p => match c p with
           | (Return a, p') => k a p'
           | (Throw e, p') => (Throw e, p')
           end.
Definition lift {A} (c : completion A) : M A := fun p => (c, p).

Definition process_env : M environment := fun p => (Return (env p), p).
Definition read_cachedUser : M value := fun p => (Return (cachedUser p), p).
Definition write_cachedUser (v : value) : M unit :=
  fun p => (Return tt,
            {| env := env p; cachedUser := v;
               upstream := upstream p; sent := sent p |}).

(** [await fetch(url, init)]: the request is sent, the next answer of the
    upstream is consumed; a transport failure (or an upstream that has
    nothing more to say) rejects. *)
Definition fetch (r : request) : M response :=
  fun p =>
    match upstream p with
    | Responds rs :: rest =>
        (Return rs, {| env := env p; cachedUser := cachedUser p;
                       upstream := rest; sent := sent p ++ [r] |})
    | Fails :: rest =>
        (Throw NetworkError, {| env := env p; cachedUser := cachedUser p;
                                upstream := rest; sent := sent p ++ [r] |})
    | [] =>
        (Throw NetworkError, {| env := env p; cachedUser := cachedUser p;
                                upstream := []; sent := sent p ++ [r] |})
    end.

(** [await response.json()]. *)
Definition json (r : response) : M value :=
  match body_json r with
  | Some v => ret v
  | None => throw SyntaxError
  end.

Definition GET (u : string) (h : headers) : request :=
  {| meth := "GET"; url := u; hdrs := h; body := None |}.
Definition POST (u : string) (h : headers) (b : list (string * value)) : request :=
  {| meth := "POST"; url := u; hdrs := h; body := Some (VObj b) |}.

End Net.
Import Net.

Declare Scope js_scope.
Delimit Scope js_scope with js.
Notation "x <- c ;; k" := (bind c (fun x => k))
  (at level 100, c at next level, right associativity) : js_scope.
Notation "c ;;; k" := (bind c (fun _ => k))
  (at level 100, right associativity) : js_scope.
Local Open Scope js_scope.

(* ================================================================== *)
(** ** Parameter and context types *)
(* ================================================================== *)

(** Modelled from the spec: the declarations of the [types] module, which is
    not among the sources.  The context carries optional nested
    configuration and each parameter object is a flat mapping of named,
    optional fields ([None] is [undefined]); the field names and types are
    those of the action schemas and of the destructuring patterns of the
    adapters. *)
Module Types.

Record GithubConfig : Type := {
  token : option string;
  username : option string
}.

Record Config : Type := { github : option GithubConfig }.

Record Context : Type := { config : option Config }.

Record RepositoryListParams : Type := {
  rl_type : option string;
  rl_sort : option string;
  rl_direction : option string;
  rl_language : option string;
  rl_limit : option Z
}.

Record RepoDetailsParams : Type := {
  rd_owner : option string;
  rd_repo : option string
}.

Record CIStatusParams : Type := {
  ci_owner : option string;
  ci_repo : option string
}.

Record RecentActivityParams : Type := {
  ra_repo : option string;
  ra_limit : option Z
}.

Record CreateIssueParams : Type := {
  is_repo : option string;
  is_title : option string;
  is_body : option string;
  is_extra : option (list (string * value))
}.

Record CreateRepoParams : Type := {
  cr_name : option string;
  cr_description : option string;
  cr_private : option bool;
  cr_auto_init : option bool
}.

Record SearchReposParams : Type := {
  sr_query : option string;
  sr_sort : option string;
  sr_limit : option Z
}.

Record CreatePRParams : Type := {
  pr_owner : option string;
  pr_repo : option string;
  pr_title : option string;
  pr_body : option string;
  pr_head : option string;
  pr_base : option string
}.

(** One entry of the skill's [actions] table together with its parameter
    object. *)
Inductive action : Type :=
| list_repos : RepositoryListParams -> action
| get_repo : RepoDetailsParams -> action
| check_ci_status : CIStatusParams -> action
| get_recent_activity : RecentActivityParams -> action
| create_issue : CreateIssueParams -> action
| create_repo : CreateRepoParams -> action
| create_pull_request : CreatePRParams -> action
| search_repos : SearchReposParams -> action.

(** A parameter as a JavaScript value. *)
Definition str_val (o : option string) : value :=
  match o with Some s => VStr s | None => VUndef end.

(** [const { x = d } = args]: the default replaces [undefined] only. *)
Definition dflt {A} (d : A) (o : option A) : A :=
  match o with Some a => a | None => d end.

(** [context.config?.github || {}]. *)
Definition github_config (c : Context) : GithubConfig :=
  match config c with
  | Some cf => match github cf with
               | Some g => g
               | None => {| token := None; username := None |}
               end
  | None => {| token := None; username := None |}
  end.

End Types.
Import Types.

Definition GITHUB_API : string := "https://api.github.com".

(** Helpers shared by the two renderings: parameters seen as values, and
    object literals whose property initialisers can throw. *)
Definition truthy_str (o : option string) : bool := truthy (str_val o).

(** An optional string inside a template literal. *)
Definition tpl (o : option string) : string := to_str (str_val o).

(** [limit || d] for an optional numeric parameter. *)
Definition num_or (o : option Z) (d : Z) : Z :=
  match o with
  | Some n => if truthy (VNum n) then n else d
  | None => d
  end.

(** An object literal: the initialisers run in order, the first throw wins. *)
Fixpoint obj_fields (l : list (string * completion value))
  : completion (list (string * value)) :=
  match l with
  | [] => Return []
  | (k, c) :: r =>
      cbind c (fun v => cbind (obj_fields r) (fun fs => Return ((k, v) :: fs)))
  end.

Definition object (l : list (string * completion value)) : completion value :=
  cbind (obj_fields l) (fun fs => Return (VObj fs)).

(** [v.k || d] and [v.k1.k2]. *)
Definition get_or (v : value) (k : string) (d : value) : completion value :=
  cbind (get v k) (fun x => Return (or_else x d)).

Definition get2 (v : value) (k1 k2 : string) : completion value :=
  cbind (get v k1) (fun x => get x k2).

Definition get3 (v : value) (k1 k2 k3 : string) : completion value :=
  cbind (get v k1) (fun x => get2 x k2 k3).

(** The callback of [repos.filter] in [listRepos]:
    [r => r.language?.toLowerCase() === language.toLowerCase()]. *)
Definition language_matches (language : string) (r : value) : completion bool :=
  cbind (get r "language") (fun l =>
  cbind (if nullish l then Return VUndef else js_toLowerCase l) (fun low =>
  Return (strict_eq_str low (toLowerCase language)))).

(* ================================================================== *)
(** ** The TypeScript rendering (module [api]) *)
(* ================================================================== *)

Module TS.

Definition getAuthHeaders (context : Context) : M headers :=
  e <- process_env ;;
  let headers := [("Accept", "application/vnd.github.v3+json");
                  ("User-Agent", "OpenClaw-GitHub-Skill")] in
  if truthy_str (GITHUB_TOKEN e) then
    ret (set_header "Authorization" ("token " ++ tpl (GITHUB_TOKEN e)) headers)
  else
    let config := github_config context in
    if truthy_str (token config) then
      ret (set_header "Authorization" ("token " ++ tpl (token config)) headers)
    else ret headers.

Definition getUsername (context : Context) : M value :=
  e <- process_env ;;
  if truthy_str (GITHUB_USERNAME e) then ret (str_val (GITHUB_USERNAME e))
  else
    let config := github_config context in
    if truthy_str (username config) then ret (str_val (username config))
    else
      c <- read_cachedUser ;;
      (if negb (truthy c) then
         h <- getAuthHeaders context ;;
         response <- fetch (GET (GITHUB_API ++ "/user") h) ;;
         data <- json response ;;
         login <- lift (get data "login") ;;
         write_cachedUser login
       else ret tt) ;;;
      read_cachedUser.

Definition listRepos (args : RepositoryListParams) (context : Context) : M value :=
  username <- getUsername context ;;
  let type := dflt "owner" (rl_type args) in
  let sort := dflt "updated" (rl_sort args) in
  let direction := dflt "desc" (rl_direction args) in
  let limit := dflt 30 (rl_limit args) in
  let url := GITHUB_API ++ "/users/" ++ to_str username ++ "/repos?type=" ++ type
             ++ "&sort=" ++ sort ++ "&direction=" ++ direction
             ++ "&per_page=" ++ num_str limit in
  h <- getAuthHeaders context ;;
  response <- fetch (GET url h) ;;
  if negb (ok response) then
    throw (Error ("GitHub API error: " ++ num_str (status response)))
  else
    repos <- json response ;;
    filtered <- (if truthy_str (rl_language args)
                 then lift (js_filter repos (language_matches (tpl (rl_language args))))
                 else ret repos) ;;
    filtered <- lift (js_slice filtered limit) ;;
    lift (object [("total", js_length filtered); ("repos", Return filtered)]).

Definition getRepo (args : RepoDetailsParams) (context : Context) : M value :=
  let owner := rd_owner args in
  let repo := rd_repo args in
  let url := GITHUB_API ++ "/repos/" ++ tpl owner ++ "/" ++ tpl repo in
  h <- getAuthHeaders context ;;
  response <- fetch (GET url h) ;;
  if negb (ok response) then
    throw (Error ("Repo not found: " ++ tpl owner ++ "/" ++ tpl repo))
  else
    data <- json response ;;
    lift (object [("name", get data "name");
                  ("full_name", get data "full_name");
                  ("description", get data "description");
                  ("stars", get data "stargazers_count");
                  ("forks", get data "forks_count");
                  ("watchers", get data "watchers_count");
                  ("language", get data "language");
                  ("open_issues", get data "open_issues_count");
                  ("created", get data "created_at");
                  ("updated", get data "updated_at");
                  ("pushed", get data "pushed_at");
                  ("url", get data "html_url");
                  ("default_branch", get data "default_branch");
                  ("private", get data "private")]).

(** The callback of [.map] in [checkCIStatus]. *)
Definition shape_run (run : value) : completion value :=
  object [("name", get run "name");
          ("status", get run "status");
          ("conclusion", get run "conclusion");
          ("branch", get run "head_branch");
          ("commit",
            cbind (get run "head_sha") (fun sha =>
            cbind (if nullish sha then Return VUndef else js_substring0 sha 7)
                  (fun c => Return (or_else c (VStr "")))));
          ("created", get run "created_at");
          ("url", get run "html_url")].

Definition checkCIStatus (args : CIStatusParams) (context : Context) : M value :=
  let owner := ci_owner args in
  let repo := ci_repo args in
  let runsUrl := GITHUB_API ++ "/repos/" ++ tpl owner ++ "/" ++ tpl repo
                 ++ "/actions/runs?per_page=5" in
  h <- getAuthHeaders context ;;
  response <- fetch (GET runsUrl h) ;;
  if negb (ok response) then
    throw (Error ("Failed to get CI status: " ++ num_str (status response)))
  else
    data <- json response ;;
    wr <- lift (get data "workflow_runs") ;;
    runs <- lift (js_map (or_else wr (VArr [])) shape_run) ;;
    ret (VObj [("repo", VStr (tpl owner ++ "/" ++ tpl repo)); ("runs", runs)]).

(** The callback of [commits.map] in [getRecentActivity]. *)
Definition shape_commit (c : value) : completion value :=
  object [("sha", cbind (get c "sha") (fun s => js_substring0 s 7));
          ("message", cbind (get2 c "commit" "message") js_first_line);
          ("author", get3 c "commit" "author" "name");
          ("date", get3 c "commit" "author" "date");
          ("url", get c "html_url")].

Definition getRecentActivity (args : RecentActivityParams) (context : Context)
  : M value :=
  username <- getUsername context ;;
  let repo := ra_repo args in
  let limit := dflt 10 (ra_limit args) in
  if negb (truthy_str repo) then throw (Error "Repository name required")
  else
    let commitsUrl := GITHUB_API ++ "/repos/" ++ to_str username ++ "/" ++ tpl repo
                      ++ "/commits?per_page=" ++ num_str limit in
    h <- getAuthHeaders context ;;
    commitsRes <- fetch (GET commitsUrl h) ;;
    if negb (ok commitsRes) then
      throw (Error ("Failed to get activity: " ++ num_str (status commitsRes)))
    else
      commits <- json commitsRes ;;
      mapped <- lift (js_map commits shape_commit) ;;
      ret (VObj [("repo", VStr (to_str username ++ "/" ++ tpl repo));
                 ("commits", mapped)]).

Definition createIssue (args : CreateIssueParams) (context : Context) : M value :=
  username <- getUsername context ;;
  let repo := is_repo args in
  let title := is_title args in
  let body := is_body args in
  if negb (truthy_str title) then throw (Error "Issue title required")
  else
    let url := GITHUB_API ++ "/repos/" ++ to_str username ++ "/" ++ tpl repo
               ++ "/issues" in
    h <- getAuthHeaders context ;;
    response <- fetch (POST url h
                  (spread [("title", str_val title);
                           ("body", or_else (str_val body) (VStr ""))]
                          (dflt [] (is_extra args)))) ;;
    if negb (ok response) then
      error <- json response ;;
      m <- lift (get error "message") ;;
      throw (Error ("Failed to create issue: "
                    ++ to_str (or_else m (VNum (status response)))))
    else
      issue <- json response ;;
      lift (object [("number", get issue "number");
                    ("title", get issue "title");
                    ("url", get issue "html_url");
                    ("state", get issue "state")]).

Definition createRepo (args : CreateRepoParams) (context : Context) : M value :=
  username <- getUsername context ;;
  let name := cr_name args in
  let description := cr_description args in
  let isPrivate := dflt false (cr_private args) in
  let auto_init := dflt true (cr_auto_init args) in
  if negb (truthy_str name) then throw (Error "Repository name required")
  else
    let url := GITHUB_API ++ "/user/repos" in
    h <- getAuthHeaders context ;;
    response <- fetch (POST url h
                  [("name", str_val name);
                   ("description", or_else (str_val description) (VStr ""));
                   ("private", VBool isPrivate);
                   ("auto_init", VBool auto_init)]) ;;
    if negb (ok response) then
      error <- json response ;;
      m <- lift (get error "message") ;;
      throw (Error ("Failed to create repo: "
                    ++ to_str (or_else m (VNum (status response)))))
    else
      repo <- json response ;;
      lift (object [("name", get repo "name");
                    ("full_name", get repo "full_name");
                    ("description", get repo "description");
                    ("stars", get_or repo "stargazers_count" (VNum 0));
                    ("forks", get_or repo "forks_count" (VNum 0));
                    ("language", get_or repo "language" VNull);
                    ("updated", get_or repo "updated_at" (VStr ""));
                    ("url", get repo "html_url");
                    ("private", get repo "private")]).

(** The callback of [.map] in [searchRepos]. *)
Definition shape_found (r : value) : completion value :=
  object [("name", get r "name");
          ("full_name", get r "full_name");
          ("description", get r "description");
          ("stars", get r "stargazers_count");
          ("language", get r "language");
          ("url", get r "html_url");
          ("forks", Return (VNum 0));
          ("updated", Return (VStr ""));
          ("private", Return (VBool false))].

Definition searchRepos (args : SearchReposParams) (context : Context) : M value :=
  username <- getUsername context ;;
  let query := sr_query args in
  let sort := dflt "updated" (sr_sort args) in
  let limit := dflt 30 (sr_limit args) in
  if negb (truthy_str query) then throw (Error "Search query required")
  else
    let url := GITHUB_API ++ "/search/repositories?q="
               ++ encodeURIComponent (tpl query) ++ "+user:" ++ to_str username
               ++ "&sort=" ++ sort ++ "&per_page=" ++ num_str limit in
    h <- getAuthHeaders context ;;
    response <- fetch (GET url h) ;;
    if negb (ok response) then
      throw (Error ("Search failed: " ++ num_str (status response)))
    else
      data <- json response ;;
      lift (object [("total", get data "total_count");
                    ("repos", cbind (get data "items") (fun items =>
                              js_map (or_else items (VArr [])) shape_found))]).

Definition createPullRequest (args : CreatePRParams) (context : Context) : M value :=
  username <- getUsername context ;;
  let owner := pr_owner args in
  let repo := pr_repo args in
  let title := pr_title args in
  let body := pr_body args in
  let head := pr_head args in
  let base := dflt "main" (pr_base args) in
  let prOwner := or_else (str_val owner) username in
  if negb (truthy prOwner) || negb (truthy_str repo) || negb (truthy_str title)
     || negb (truthy_str head)
  then throw (Error "owner, repo, title, and head are required")
  else
    let url := GITHUB_API ++ "/repos/" ++ to_str prOwner ++ "/" ++ tpl repo
               ++ "/pulls" in
    h <- getAuthHeaders context ;;
    response <- fetch (POST url h
                  [("title", str_val title);
                   ("body", or_else (str_val body) (VStr ""));
                   ("head", str_val head);
                   ("base", VStr base)]) ;;
    if negb (ok response) then
      error <- json response ;;
      m <- lift (get error "message") ;;
      throw (Error ("Failed to create PR: "
                    ++ to_str (or_else m (VNum (status response)))))
    else
      pr <- json response ;;
      lift (object [("number", get pr "number");
                    ("title", get pr "title");
                    ("url", get pr "html_url");
                    ("state", get pr "state");
                    ("head", get2 pr "head" "ref");
                    ("base", get2 pr "base" "ref")]).

(** [skill.actions[name].handler(args, context)]. *)
Definition handler (a : action) (context : Context) : M value :=
  match a with
  | list_repos args => listRepos args context
  | get_repo args => getRepo args context
  | check_ci_status args => checkCIStatus args context
  | get_recent_activity args => getRecentActivity args context
  | create_issue args => createIssue args context
  | create_repo args => createRepo args context
  | create_pull_request args => createPullRequest args context
  | search_repos args => searchRepos args context
  end.

End TS.

(* ================================================================== *)
(** ** The JavaScript rendering ([index.js]) *)
(* ================================================================== *)

Module JS.

Definition authHeaders (context : Context) : M headers :=
  e <- process_env ;;
  let headers := [("Accept", "application/vnd.github.v3+json");
                  ("User-Agent", "OpenClaw-GitHub-Skill")] in
  if truthy_str (GITHUB_TOKEN e) then
    ret (set_header "Authorization" ("token " ++ tpl (GITHUB_TOKEN e)) headers)
  else
    let config := github_config context in
    if truthy_str (token config) then
      ret (set_header "Authorization" ("token " ++ tpl (token config)) headers)
    else ret headers.

Definition getUsername (context : Context) : M value :=
  e <- process_env ;;
  if truthy_str (GITHUB_USERNAME e) then ret (str_val (GITHUB_USERNAME e))
  else
    let config := github_config context in
    if truthy_str (username config) then ret (str_val (username config))
    else
      c <- read_cachedUser ;;
      (if negb (truthy c) then
         h <- authHeaders context ;;
         response <- fetch (GET (GITHUB_API ++ "/user") h) ;;
         data <- json response ;;
         login <- lift (get data "login") ;;
         write_cachedUser login
       else ret tt) ;;;
      read_cachedUser.

(** The callback of [filtered.map] in [listRepos]. *)
Definition shape_repo (r : value) : completion value :=
  object [("name", get r "name");
          ("full_name", get r "full_name");
          ("description", get r "description");
          ("stars", get r "stargazers_count");
          ("forks", get r "forks_count");
          ("language", get r "language");
          ("updated", get r "updated_at");
          ("url", get r "html_url");
          ("private", get r "private")].

Definition listRepos (args : RepositoryListParams) (context : Context) : M value :=
  username <- getUsername context ;;
  let type := dflt "owner" (rl_type args) in
  let sort := dflt "updated" (rl_sort args) in
  let direction := dflt "desc" (rl_direction args) in
  let limit := dflt 30 (rl_limit args) in
  let url := GITHUB_API ++ "/users/" ++ to_str username ++ "/repos?type=" ++ type
             ++ "&sort=" ++ sort ++ "&direction=" ++ direction
             ++ "&per_page=" ++ num_str limit in
  h <- authHeaders context ;;
  response <- fetch (GET url h) ;;
  if negb (ok response) then
    throw (Error ("GitHub API error: " ++ num_str (status response)))
  else
    repos <- json response ;;
    filtered <- (if truthy_str (rl_language args)
                 then lift (js_filter repos (language_matches (tpl (rl_language args))))
                 else ret repos) ;;
    filtered <- lift (js_slice filtered (num_or (rl_limit args) 30)) ;;
    lift (object [("total", js_length filtered);
                  ("repos", js_map filtered shape_repo)]).

Definition getRepo (args : RepoDetailsParams) (context : Context) : M value :=
  let owner := rd_owner args in
  let repo := rd_repo args in
  let url := GITHUB_API ++ "/repos/" ++ tpl owner ++ "/" ++ tpl repo in
  h <- authHeaders context ;;
  response <- fetch (GET url h) ;;
  if negb (ok response) then
    throw (Error ("Repo not found: " ++ tpl owner ++ "/" ++ tpl repo))
  else
    data <- json response ;;
    lift (object [("name", get data "name");
                  ("full_name", get data "full_name");
                  ("description", get data "description");
                  ("stars", get data "stargazers_count");
                  ("forks", get data "forks_count");
                  ("watchers", get data "watchers_count");
                  ("language", get data "language");
                  ("open_issues", get data "open_issues_count");
                  ("created", get data "created_at");
                  ("updated", get data "updated_at");
                  ("pushed", get data "pushed_at");
                  ("url", get data "html_url");
                  ("default_branch", get data "default_branch");
                  ("private", get data "private")]).

(** The callback of [.map] in [checkCIStatus]. *)
Definition shape_run (run : value) : completion value :=
  object [("name", get run "name");
          ("status", get run "status");
          ("conclusion", get run "conclusion");
          ("branch", get run "head_branch");
          ("commit",
            cbind (get run "head_sha") (fun sha =>
            if nullish sha then Return VUndef else js_substring0 sha 7));
          ("created", get run "created_at");
          ("url", get run "html_url")].

Definition checkCIStatus (args : CIStatusParams) (context : Context) : M value :=
  let owner := ci_owner args in
  let repo := ci_repo args in
  let runsUrl := GITHUB_API ++ "/repos/" ++ tpl owner ++ "/" ++ tpl repo
                 ++ "/actions/runs?per_page=5" in
  h <- authHeaders context ;;
  response <- fetch (GET runsUrl h) ;;
  if negb (ok response) then
    throw (Error ("Failed to get CI status: " ++ num_str (status response)))
  else
    data <- json response ;;
    wr <- lift (get data "workflow_runs") ;;
    mapped <- lift (if nullish wr then Return VUndef else js_map wr shape_run) ;;
    let runs := or_else mapped (VArr []) in
    ret (VObj [("repo", VStr (tpl owner ++ "/" ++ tpl repo)); ("runs", runs)]).

(** The callback of [commits.map] in [getRecentActivity]. *)
Definition shape_commit (c : value) : completion value :=
  object [("sha", cbind (get c "sha") (fun s => js_substring0 s 7));
          ("message", cbind (get2 c "commit" "message") js_first_line);
          ("author", get3 c "commit" "author" "name");
          ("date", get3 c "commit" "author" "date");
          ("url", get c "html_url")].

Definition getRecentActivity (args : RecentActivityParams) (context : Context)
  : M value :=
  username <- getUsername context ;;
  let repo := ra_repo args in
  let limit := dflt 10 (ra_limit args) in
  if negb (truthy_str repo) then throw (Error "Repository name required")
  else
    let commitsUrl := GITHUB_API ++ "/repos/" ++ to_str username ++ "/" ++ tpl repo
                      ++ "/commits?per_page=" ++ num_str limit in
    h <- authHeaders context ;;
    commitsRes <- fetch (GET commitsUrl h) ;;
    if negb (ok commitsRes) then
      throw (Error ("Failed to get activity: " ++ num_str (status commitsRes)))
    else
      commits <- json commitsRes ;;
      mapped <- lift (js_map commits shape_commit) ;;
      ret (VObj [("repo", VStr (to_str username ++ "/" ++ tpl repo));
                 ("commits", mapped)]).

Definition createIssue (args : CreateIssueParams) (context : Context) : M value :=
  username <- getUsername context ;;
  let repo := is_repo args in
  let title := is_title args in
  let body := is_body args in
  if negb (truthy_str title) then throw (Error "Issue title required")
  else
    let url := GITHUB_API ++ "/repos/" ++ to_str username ++ "/" ++ tpl repo
               ++ "/issues" in
    h <- authHeaders context ;;
    response <- fetch (POST url h
                  (spread [("title", str_val title);
                           ("body", or_else (str_val body) (VStr ""))]
                          (match is_extra args with
                           | Some extra => extra
                           | None => []
                           end))) ;;
    if negb (ok response) then
      throw (Error ("Failed to create issue: " ++ num_str (status response)))
    else
      issue <- json response ;;
      lift (object [("number", get issue "number");
                    ("title", get issue "title");
                    ("url", get issue "html_url");
                    ("state", get issue "state")]).

Definition createRepo (args : CreateRepoParams) (context : Context) : M value :=
  username <- getUsername context ;;
  let name := cr_name args in
  let description := cr_description args in
  let private := dflt false (cr_private args) in
  let auto_init := dflt true (cr_auto_init args) in
  if negb (truthy_str name) then throw (Error "Repository name required")
  else
    let url := GITHUB_API ++ "/user/repos" in
    h <- authHeaders context ;;
    response <- fetch (POST url h
                  [("name", str_val name);
                   ("description", or_else (str_val description) (VStr ""));
                   ("private", VBool private);
                   ("auto_init", VBool auto_init)]) ;;
    if negb (ok response) then
      error <- json response ;;
      m <- lift (get error "message") ;;
      throw (Error ("Failed to create repo: "
                    ++ to_str (or_else m (VNum (status response)))))
    else
      repo <- json response ;;
      lift (object [("name", get repo "name");
                    ("full_name", get repo "full_name");
                    ("description", get repo "description");
                    ("url", get repo "html_url");
                    ("private", get repo "private");
                    ("clone_url", get repo "clone_url")]).

(** The callback of [.map] in [searchRepos]. *)
Definition shape_found (r : value) : completion value :=
  object [("name", get r "name");
          ("full_name", get r "full_name");
          ("description", get r "description");
          ("stars", get r "stargazers_count");
          ("language", get r "language");
          ("url", get r "html_url")].

Definition searchRepos (args : SearchReposParams) (context : Context) : M value :=
  username <- getUsername context ;;
  let query := sr_query args in
  let sort := dflt "updated" (sr_sort args) in
  let limit := dflt 30 (sr_limit args) in
  if negb (truthy_str query) then throw (Error "Search query required")
  else
    let url := GITHUB_API ++ "/search/repositories?q="
               ++ encodeURIComponent (tpl query) ++ "+user:" ++ to_str username
               ++ "&sort=" ++ sort ++ "&per_page=" ++ num_str limit in
    h <- authHeaders context ;;
    response <- fetch (GET url h) ;;
    if negb (ok response) then
      throw (Error ("Search failed: " ++ num_str (status response)))
    else
      data <- json response ;;
      lift (object [("total", get data "total_count");
                    ("repos", cbind (get data "items") (fun items =>
                              cbind (if nullish items then Return VUndef
                                     else js_map items shape_found) (fun mapped =>
                              Return (or_else mapped (VArr []))))) ]).

Definition createPullRequest (args : CreatePRParams) (context : Context) : M value :=
  username <- getUsername context ;;
  let owner := pr_owner args in
  let repo := pr_repo args in
  let title := pr_title args in
  let body := pr_body args in
  let head := pr_head args in
  let base := dflt "main" (pr_base args) in
  if negb (truthy_str owner) || negb (truthy_str repo) || negb (truthy_str title)
     || negb (truthy_str head)
  then throw (Error "owner, repo, title, and head are required")
  else
    let url := GITHUB_API ++ "/repos/" ++ tpl owner ++ "/" ++ tpl repo
               ++ "/pulls" in
    h <- authHeaders context ;;
    response <- fetch (POST url h
                  [("title", str_val title);
                   ("body", or_else (str_val body) (VStr ""));
                   ("head", str_val head);
                   ("base", VStr base)]) ;;
    if negb (ok response) then
      error <- json response ;;
      m <- lift (get error "message") ;;
      throw (Error ("Failed to create PR: "
                    ++ to_str (or_else m (VNum (status response)))))
    else
      pr <- json response ;;
      lift (object [("number", get pr "number");
                    ("title", get pr "title");
                    ("url", get pr "html_url");
                    ("state", get pr "state");
                    ("head", get2 pr "head" "ref");
                    ("base", get2 pr "base" "ref")]).

(** [skill.actions[name].handler(args, context)]. *)
Definition handler (a : action) (context : Context) : M value :=
  match a with
  | list_repos args => listRepos args context
  | get_repo args => getRepo args context
  | check_ci_status args => checkCIStatus args context
  | get_recent_activity args => getRecentActivity args context
  | create_issue args => createIssue args context
  | create_repo args => createRepo args context
  | create_pull_request args => createPullRequest args context
  | search_repos args => searchRepos args context
  end.

End JS.

(* ================================================================== *)
(** ** Vocabulary of the properties *)
(* ================================================================== *)

(** A credential source supplies [s]: the value is present and not empty. *)
Definition supplies (o : option string) (s : string) : Prop :=
  o = Some s /\ s <> "".

(** A parameter or credential source that is absent or empty. *)
Definition absent_or_empty (o : option string) : Prop :=
  o = None \/ o = Some "".

(** [msg] contains [part]. *)
Definition contains (msg part : string) : Prop :=
  exists a b, msg = a ++ part ++ b.

(** The process after one more answered or failed request. *)
Definition after_request (p : process) (q : request) (rest : list answer) : process :=
  {| env := env p; cachedUser := cachedUser p; upstream := rest;
     sent := (sent p ++ [q])%list |}.

(** The process once the identity lookup has stored [login]. *)
Definition with_cachedUser (p : process) (login : value) : process :=
  {| env := env p; cachedUser := login; upstream := upstream p; sent := sent p |}.

(** [n] sequential calls of one asynchronous function in one process: the
    completions in call order and the process that is left. *)
Fixpoint sequentially (n : nat) (c : M value) (p : process)
  : list (completion value) * process :=
  match n with
  | O => ([], p)
  | S k =>
      let (r, p1) := c p in
      let (rs, p2) := sequentially k c p1 in
      (r :: rs, p2)
  end.

(** The identity lookup request. *)
Definition is_lookup (q : request) : Prop :=
  meth q = "GET" /\ url q = GITHUB_API ++ "/user".

(** An asynchronous computation that neither touches the process nor the
    network. *)
Definition quiet {A} (m : M A) : Prop := forall p, snd (m p) = p.

(** The prefix of a message up to, and excluding, its first line feed. *)
Fixpoint first_line (s : string) : string :=
  match s with
  | EmptyString => EmptyString
  | String c r => if Ascii.eqb c LF then EmptyString else String c (first_line r)
  end.

Fixpoint has_lf (s : string) : bool :=
  match s with
  | EmptyString => false
  | String c r => Ascii.eqb c LF || has_lf r
  end.

(** The language test of [list_repos] as a total predicate: the repository
    has a string [language] equal to the filter up to case. *)
Definition has_language (language : string) (r : value) : bool :=
  match get r "language" with
  | Return (VStr l) => String.eqb (toLowerCase l) (toLowerCase language)
  | _ => false
  end.

(** The three placeholder fields of a repository found by [search_repos]. *)
Definition placeholders (r : value) : Prop :=
  get r "forks" = Return (VNum 0)
  /\ get r "updated" = Return (VStr "")
  /\ get r "private" = Return (VBool false).

(** *** The claims of the specification that the code does not satisfy,
    written as they are stated *)

(** create_issue without a title raises an error naming the field and sends
    nothing at all. *)
Definition create_issue_validates_before_network : Prop :=
  forall args ctx p,
    absent_or_empty (is_title args) ->
    exists msg p',
      TS.createIssue args ctx p = (Throw (Error msg), p')
      /\ contains msg "title"
      /\ sent p' = sent p.

(** Any number of calls of the username resolver sends at most one lookup
    and every call completes like the first. *)
Definition username_lookup_at_most_once : Prop :=
  forall ctx p n,
    absent_or_empty (GITHUB_USERNAME (env p)) ->
    absent_or_empty (username (github_config ctx)) ->
    (length (sent (snd (sequentially n (TS.getUsername ctx) p)))
     <= length (sent p) + 1)%nat
    /\ (forall r, hd_error (fst (sequentially n (TS.getUsername ctx) p)) = Some r ->
        Forall (eq r) (fst (sequentially n (TS.getUsername ctx) p))).

(** list_repos and search_repos never return more than [limit] repositories. *)
Definition repos_bounded_by_limit : Prop :=
  (forall args ctx p res p' repos n,
      TS.listRepos args ctx p = (Return res, p') ->
      get res "repos" = Return repos ->
      js_length repos = Return (VNum n) ->
      n <= dflt 30 (rl_limit args))
  /\ (forall args ctx p res p' repos n,
      TS.searchRepos args ctx p = (Return res, p') ->
      get res "repos" = Return repos ->
      js_length repos = Return (VNum n) ->
      n <= dflt 30 (sr_limit args)).

(** Every adapter whose request is answered with a non-success status and a
    JSON error body raises an error that contains the body's message. *)
Definition upstream_reason_always_reported : Prop :=
  forall a ctx p u r rest b reason,
    TS.getUsername ctx p = (Return u, p) ->
    upstream p = Responds r :: rest ->
    ok r = false ->
    body_json r = Some b ->
    get b "message" = Return (VStr reason) ->
    forall res p',
      TS.handler a ctx p = (res, p') ->
      upstream p' = rest ->
      exists msg, res = Throw (Error msg) /\ contains msg reason.

(** create_pull_request, for one rendering given by its username resolver
    and its adapter: an omitted owner is replaced by the acting username in
    the URL, an omitted base is "main", and a missing title or head is a
    validation error. *)
Definition pull_request_contract
    (getUsername : Context -> M value)
    (createPullRequest : CreatePRParams -> Context -> M value) : Prop :=
  forall args ctx p0 u p,
    getUsername ctx p0 = (Return u, p) ->
    (absent_or_empty (pr_title args) \/ absent_or_empty (pr_head args) ->
     createPullRequest args ctx p0
     = (Throw (Error "owner, repo, title, and head are required"), p))
    /\ (forall repo title head,
        pr_owner args = None ->
        truthy u = true ->
        supplies (pr_repo args) repo ->
        supplies (pr_title args) title ->
        supplies (pr_head args) head ->
        exists q fs,
          sent (snd (createPullRequest args ctx p0)) = (sent p ++ [q])%list
          /\ meth q = "POST"
          /\ url q = GITHUB_API ++ "/repos/" ++ to_str u ++ "/" ++ repo ++ "/pulls"
          /\ body q = Some (VObj fs)
          /\ lookup "base" fs = Some (VStr (dflt "main" (pr_base args)))).

Definition pull_request_owner_falls_back : Prop :=
  pull_request_contract TS.getUsername TS.createPullRequest
  /\ pull_request_contract JS.getUsername JS.createPullRequest.

(** The two renderings behave alike on every action and input. *)
Definition renderings_equivalent : Prop :=
  forall a ctx p, JS.handler a ctx p = TS.handler a ctx p.

(** *** What each adapter does with a non-success answer *)

(** Whether the adapter resolves the acting username before anything else. *)
Definition keyed_by_user (a : action) : bool :=
  match a with
  | get_repo _ | check_ci_status _ => false
  | _ => true
  end.

(** The first step of an adapter: username resolution, or nothing. *)
Definition resolution (a : action) (ctx : Context) : M value :=
  if keyed_by_user a then TS.getUsername ctx else ret VUndef.

(** The validation an adapter runs between username resolution and its
    request, given the resolved username; the TypeScript and JavaScript
    renderings differ on the owner of a pull request. *)
Definition passes_validation (ts : bool) (a : action) (u : value) : bool :=
  match a with
  | list_repos _ | get_repo _ | check_ci_status _ => true
  | get_recent_activity args => truthy_str (ra_repo args)
  | create_issue args => truthy_str (is_title args)
  | create_repo args => truthy_str (cr_name args)
  | search_repos args => truthy_str (sr_query args)
  | create_pull_request args =>
      (if ts then truthy (or_else (str_val (pr_owner args)) u)
       else truthy_str (pr_owner args))
      && truthy_str (pr_repo args) && truthy_str (pr_title args)
      && truthy_str (pr_head args)
  end.

(** An error that reports the numeric status code. *)
Definition status_error (prefix : string) (r : response) : error :=
  Error (prefix ++ num_str (status r)).

(** An error built from the parsed error body: its [message] when truthy,
    else the status code; an unparseable or [null] body throws on its own. *)
Definition reason_error (prefix : string) (r : response) : error :=
  match body_json r with
  | None => SyntaxError
  | Some b =>
      match get b "message" with
      | Throw e => e
      | Return m => Error (prefix ++ to_str (or_else m (VNum (status r))))
      end
  end.

(** The error each adapter throws on a non-success answer [r]. *)
Definition failure (ts : bool) (a : action) (r : response) : error :=
  match a with
  | list_repos _ => status_error "GitHub API error: " r
  | get_repo args =>
      Error ("Repo not found: " ++ tpl (rd_owner args) ++ "/" ++ tpl (rd_repo args))
  | check_ci_status _ => status_error "Failed to get CI status: " r
  | get_recent_activity _ => status_error "Failed to get activity: " r
  | create_issue _ =>
      if ts then reason_error "Failed to create issue: " r
      else status_error "Failed to create issue: " r
  | create_repo _ => reason_error "Failed to create repo: " r
  | create_pull_request _ => reason_error "Failed to create PR: " r
  | search_repos _ => status_error "Search failed: " r
  end.

(** The adapters that read the error body. *)
Definition reports_reason (ts : bool) (a : action) : bool :=
  match a with
  | create_issue _ => ts
  | create_repo _ | create_pull_request _ => true
  | _ => false
  end.

Definition handler_of (ts : bool) : action -> Context -> M value :=
  if ts then TS.handler else JS.handler.

(** Whether a pull request names its owner (the other actions have no
    owner to omit). *)
Definition names_owner (a : action) : bool :=
  match a with
  | create_pull_request args => truthy_str (pr_owner args)
  | _ => true
  end.

(* ================================================================== *)
(** ** Concrete processes, contexts and upstream answers *)
(* ================================================================== *)

Module Sample.

Definition no_config : Context := {| config := None |}.

Definition configured (tok usr : option string) : Context :=
  {| config := Some {| github := Some {| token := tok; username := usr |} |} |}.

Definition no_env : environment :=
  {| GITHUB_TOKEN := None; GITHUB_USERNAME := None |}.

Definition operator_env : environment :=
  {| GITHUB_TOKEN := Some "ghp_env"; GITHUB_USERNAME := Some "operator" |}.

(** A fresh process: nothing cached, nothing sent. *)
Definition fresh (e : environment) (ups : list answer) : process :=
  {| env := e; cachedUser := VNull; upstream := ups; sent := [] |}.

Definition answer_ok (v : value) : answer :=
  Responds {| status := 200; body_json := Some v |}.

Definition answer_status (code : Z) (v : value) : answer :=
  Responds {| status := code; body_json := Some v |}.

Definition octocat : value := VObj [("login", VStr "octocat")].

Definition rate_limited : value :=
  VObj [("message", VStr "API rate limit exceeded")].

Definition repo_of (name : string) (language : value) : value :=
  VObj [("name", VStr name); ("full_name", VStr ("octocat/" ++ name));
        ("description", VNull); ("stargazers_count", VNum 3);
        ("forks_count", VNum 99); ("language", language);
        ("updated_at", VStr "2024-05-01T10:00:00Z");
        ("html_url", VStr ("https://github.com/octocat/" ++ name));
        ("private", VBool true)].

Definition three_repos : value :=
  VArr [repo_of "alpha" VNull; repo_of "beta" (VStr "Go"); repo_of "gamma" (VStr "GO")].

Definition found_two : value :=
  VObj [("total_count", VNum 2);
        ("items", VArr [repo_of "alpha" (VStr "Go"); repo_of "beta" (VStr "Go")])].

Definition commit_of (sha message : string) : value :=
  VObj [("sha", VStr sha);
        ("commit", VObj [("message", VStr message);
                         ("author", VObj [("name", VStr "Mona");
                                          ("date", VStr "2024-05-01T10:00:00Z")])]);
        ("html_url", VStr "https://github.com/octocat/widget/commit/1")].

Definition fix_bug_message : string :=
  "fix bug" ++ String LF (String LF "longer body").

Definition list_args (language : option string) (limit : option Z)
  : RepositoryListParams :=
  {| rl_type := None; rl_sort := None; rl_direction := None;
     rl_language := language; rl_limit := limit |}.

Definition search_args (query : string) (limit : option Z) : SearchReposParams :=
  {| sr_query := Some query; sr_sort := None; sr_limit := limit |}.

Definition issue_args (title : option string) : CreateIssueParams :=
  {| is_repo := Some "widget"; is_title := title; is_body := None;
     is_extra := None |}.

Definition pr_args (owner title : option string) : CreatePRParams :=
  {| pr_owner := owner; pr_repo := Some "widget"; pr_title := title;
     pr_body := None; pr_head := Some "feature"; pr_base := None |}.

Definition new_repo_args : CreateRepoParams :=
  {| cr_name := Some "widget"; cr_description := None; cr_private := None;
     cr_auto_init := None |}.

Definition name_taken : value :=
  VObj [("message", VStr "name already exists on this account")].

Definition activity_args : RecentActivityParams :=
  {| ra_repo := Some "widget"; ra_limit := None |}.

End Sample.

(* ================================================================== *)
(** ** Vocabulary of the further properties *)
(* ================================================================== *)

(** [h[k]] on a header object. *)
Fixpoint header_value (k : string) (h : headers) : option string :=
  match h with
  | [] => None
  | (k', v) :: r => if String.eqb k k' then Some v else header_value k r
  end.


(** The URL of the one request of an action keyed by an explicit
    owner/repo pair. *)
Definition explicit_url (a : action) : string :=
  match a with
  | get_repo args =>
      GITHUB_API ++ "/repos/" ++ tpl (rd_owner args) ++ "/" ++ tpl (rd_repo args)
  | check_ci_status args =>
      GITHUB_API ++ "/repos/" ++ tpl (ci_owner args) ++ "/" ++ tpl (ci_repo args)
      ++ "/actions/runs?per_page=5"
  | _ => ""
  end.

(** The message of the validation error of each action that validates. *)
Definition validation_message (a : action) : string :=
  match a with
  | get_recent_activity _ | create_repo _ => "Repository name required"
  | create_issue _ => "Issue title required"
  | search_repos _ => "Search query required"
  | create_pull_request _ => "owner, repo, title, and head are required"
  | _ => ""
  end.

(** A field of a parsed body, [undefined] when missing. *)
Definition field (v : value) (k : string) : value :=
  match get v k with
  | Return x => x
  | Throw _ => VUndef
  end.

(** The parameters of list_repos with another language filter. *)
Definition with_language (args : RepositoryListParams) (language : option string)
  : RepositoryListParams :=
  {| rl_type := rl_type args; rl_sort := rl_sort args;
     rl_direction := rl_direction args; rl_language := language;
     rl_limit := rl_limit args |}.

(** Further concrete inputs. *)
Module Fixture.

Definition widget_ci : CIStatusParams :=
  {| ci_owner := Some "acme"; ci_repo := Some "widget" |}.

Definition widget_repo : RepoDetailsParams :=
  {| rd_owner := Some "acme"; rd_repo := Some "widget" |}.

Definition sha40 : string := "0123456789abcdef0123456789abcdef01234567".

Definition run_of (head_sha : value) : value :=
  VObj [("name", VStr "CI"); ("status", VStr "completed");
        ("conclusion", VStr "success"); ("head_branch", VStr "main");
        ("head_sha", head_sha); ("created_at", VStr "2024-05-01T10:00:00Z");
        ("html_url", VStr "https://github.com/acme/widget/actions/runs/1")].

Definition two_runs : value :=
  VObj [("workflow_runs", VArr [run_of (VStr sha40); run_of VNull])].

Definition bad_credentials : value :=
  VObj [("message", VStr "Bad credentials")].

Definition labelled_issue : CreateIssueParams :=
  {| is_repo := Some "widget"; is_title := Some "Gears slip";
     is_body := None;
     is_extra := Some [("labels", VArr [VStr "bug"]);
                       ("title", VStr "Gears slip badly")] |}.

Definition commit_without_author : value :=
  VObj [("sha", VStr sha40); ("commit", VObj [("message", VStr "m")])].

End Fixture.

(* ================================================================== *)
(** ** Vocabulary of the properties on well-formed upstream data *)
(* ================================================================== *)





(** A commit that get_recent_activity can normalize: [sha] and
    [commit.message] are strings and [commit.author] is an object. *)
Definition commit_ok (c : value) : bool :=
  match get c "sha", get2 c "commit" "message", get2 c "commit" "author" with
  | Return (VStr _), Return (VStr _), Return a => negb (nullish a)
  | _, _, _ => false
  end.


(* ================================================================== *)
(** ** Basic facts: truthiness, the monad, quiet computations *)
(* ================================================================== *)

Lemma truthy_str_supplies o s : supplies o s -> truthy_str o = true.
Proof.
  intros [-> Hs]. unfold truthy_str. simpl.
  destruct (String.eqb_spec s ""); [contradiction | reflexivity].
Qed.

Lemma truthy_str_absent o : absent_or_empty o -> truthy_str o = false.
Proof. intros [-> | ->]; reflexivity. Qed.

Lemma truthy_str_true o :
  truthy_str o = true -> exists s, supplies o s.
Proof.
  unfold truthy_str, supplies. destruct o as [s|]; simpl; [|discriminate].
  destruct (String.eqb_spec s ""); [discriminate|]. intros _. now exists s.
Qed.

Lemma truthy_str_false o : truthy_str o = false -> absent_or_empty o.
Proof.
  unfold truthy_str, absent_or_empty. destruct o as [s|]; simpl; [|now left].
  destruct (String.eqb_spec s ""); [subst; now right | discriminate].
Qed.

Lemma tpl_supplies o s : supplies o s -> tpl o = s.
Proof. intros [-> _]. reflexivity. Qed.

Lemma bind_Return {A B} (c : M A) (k : A -> M B) p a p' :
  c p = (Return a, p') -> bind c k p = k a p'.
Proof. unfold bind. now intros ->. Qed.

Lemma bind_Throw {A B} (c : M A) (k : A -> M B) p e p' :
  c p = (Throw e, p') -> bind c k p = (Throw e, p').
Proof. unfold bind. now intros ->. Qed.

Lemma quiet_ret {A} (a : A) : quiet (ret a).
Proof. intro p. reflexivity. Qed.

Lemma quiet_throw {A} e : quiet (@throw A e).
Proof. intro p. reflexivity. Qed.

Lemma quiet_lift {A} (c : completion A) : quiet (lift c).
Proof. intro p. reflexivity. Qed.

Lemma quiet_json r : quiet (json r).
Proof. intro p. unfold json. now destruct (body_json r). Qed.

Lemma quiet_bind {A B} (c : M A) (k : A -> M B) :
  quiet c -> (forall a, quiet (k a)) -> quiet (bind c k).
Proof.
  intros Hc Hk p. unfold bind. specialize (Hc p).
  destruct (c p) as [[a|e] p1]; simpl in Hc; subst p1; [apply Hk | reflexivity].
Qed.

Lemma quiet_if {A} (b : bool) (m1 m2 : M A) :
  quiet m1 -> quiet m2 -> quiet (if b then m1 else m2).
Proof. now destruct b. Qed.

(** Two continuations that leave the same process behind do so after any
    common prefix. *)
Lemma bind_same_process {A B C} (c : M A) (k1 : A -> M B) (k2 : A -> M C) p :
  (forall a p', snd (k1 a p') = snd (k2 a p')) ->
  snd (bind c k1 p) = snd (bind c k2 p).
Proof.
  intros H. unfold bind. destruct (c p) as [[a|e] p1]; [apply H | reflexivity].
Qed.

Lemma quiet_same_process {A B} (m1 : M A) (m2 : M B) p :
  quiet m1 -> quiet m2 -> snd (m1 p) = snd (m2 p).
Proof. intros H1 H2. now rewrite H1, H2. Qed.

(* ================================================================== *)
(** ** The credential resolver *)
(* ================================================================== *)

(** The headers [getAuthHeaders] builds in process [p]. *)
Lemma getAuthHeaders_quiet ctx p :
  exists h, TS.getAuthHeaders ctx p = (Return h, p).
Proof.
  unfold TS.getAuthHeaders, bind, process_env.
  destruct (truthy_str (GITHUB_TOKEN (env p))); [eexists; reflexivity|].
  destruct (truthy_str (token (github_config ctx))); eexists; reflexivity.
Qed.

Lemma authHeaders_same ctx : JS.authHeaders ctx = TS.getAuthHeaders ctx.
Proof. reflexivity. Qed.

Lemma getUsername_same ctx : JS.getUsername ctx = TS.getUsername ctx.
Proof. reflexivity. Qed.

Lemma getUsername_env ctx p s :
  supplies (GITHUB_USERNAME (env p)) s ->
  TS.getUsername ctx p = (Return (VStr s), p).
Proof.
  intros H. unfold TS.getUsername, bind, process_env.
  rewrite (truthy_str_supplies _ _ H). destruct H as [-> _]. reflexivity.
Qed.

Lemma getUsername_config ctx p s :
  absent_or_empty (GITHUB_USERNAME (env p)) ->
  supplies (username (github_config ctx)) s ->
  TS.getUsername ctx p = (Return (VStr s), p).
Proof.
  intros He H. unfold TS.getUsername, bind, process_env.
  rewrite (truthy_str_absent _ He), (truthy_str_supplies _ _ H).
  destruct H as [-> _]. reflexivity.
Qed.

Lemma getUsername_cached ctx p :
  absent_or_empty (GITHUB_USERNAME (env p)) ->
  absent_or_empty (username (github_config ctx)) ->
  truthy (cachedUser p) = true ->
  TS.getUsername ctx p = (Return (cachedUser p), p).
Proof.
  intros He Hc Ht. unfold TS.getUsername, bind, process_env, read_cachedUser.
  rewrite (truthy_str_absent _ He), (truthy_str_absent _ Hc), Ht. reflexivity.
Qed.

(** The lookup itself, when nothing else supplies the username. *)
Lemma getUsername_lookup ctx p :
  absent_or_empty (GITHUB_USERNAME (env p)) ->
  absent_or_empty (username (github_config ctx)) ->
  truthy (cachedUser p) = false ->
  exists h,
    TS.getAuthHeaders ctx p = (Return h, p)
    /\ let q := GET (GITHUB_API ++ "/user") h in
       TS.getUsername ctx p =
       match upstream p with
       | Responds r :: rest =>
           match body_json r with
           | Some data =>
               match get data "login" with
               | Return login =>
                   (Return login, with_cachedUser (after_request p q rest) login)
               | Throw e => (Throw e, after_request p q rest)
               end
           | None => (Throw SyntaxError, after_request p q rest)
           end
       | Fails :: rest => (Throw NetworkError, after_request p q rest)
       | [] => (Throw NetworkError, after_request p q [])
       end.
Proof.
  intros He Hc Ht. destruct (getAuthHeaders_quiet ctx p) as [h Hh].
  exists h. split; [exact Hh|]. cbv zeta.
  unfold TS.getUsername, bind, process_env, read_cachedUser.
  rewrite (truthy_str_absent _ He), (truthy_str_absent _ Hc), Ht.
  cbn [negb]. cbv beta iota. rewrite Hh. unfold fetch, after_request, with_cachedUser.
  destruct (upstream p) as [|[r|] rest]; try reflexivity.
  unfold json. destruct (body_json r) as [data|]; [|reflexivity].
  unfold ret, lift. destruct (get data "login"); reflexivity.
Qed.

(** Whatever happens, the resolver sends at most one request, and only the
    identity lookup. *)
Lemma getUsername_requests ctx p :
  exists new,
    sent (snd (TS.getUsername ctx p)) = (sent p ++ new)%list
    /\ (length new <= 1)%nat
    /\ Forall is_lookup new.
Proof.
  destruct (truthy_str (GITHUB_USERNAME (env p))) eqn:He.
  { apply truthy_str_true in He as [s Hs].
    rewrite (getUsername_env ctx p s Hs). exists []. simpl.
    rewrite app_nil_r. auto. }
  apply truthy_str_false in He.
  destruct (truthy_str (username (github_config ctx))) eqn:Hc.
  { apply truthy_str_true in Hc as [s Hs].
    rewrite (getUsername_config ctx p s He Hs). exists []. simpl.
    rewrite app_nil_r. auto. }
  apply truthy_str_false in Hc.
  destruct (truthy (cachedUser p)) eqn:Ht.
  { rewrite (getUsername_cached ctx p He Hc Ht). exists []. simpl.
    rewrite app_nil_r. auto. }
  destruct (getUsername_lookup ctx p He Hc Ht) as (h & _ & ->).
  exists [GET (GITHUB_API ++ "/user") h].
  split; [|split; [simpl; lia | repeat constructor]].
  destruct (upstream p) as [|[r|] rest]; try reflexivity.
  destruct (body_json r) as [data|]; [|reflexivity].
  destruct (get data "login"); reflexivity.
Qed.

(** Once a username is available without a lookup, any number of calls
    returns it and leaves the process as it was. *)
Lemma sequentially_stable ctx p v :
  TS.getUsername ctx p = (Return v, p) ->
  forall n, sequentially n (TS.getUsername ctx) p = (repeat (Return v) n, p).
Proof.
  intros H. induction n as [|n IH]; simpl; [reflexivity|].
  now rewrite H, IH.
Qed.

(** C2.  Credential precedence: a token (username) supplied by the
    environment decides the Authorization header (acting username) whatever
    the context configuration holds, and the configuration value is used
    when the environment supplies none. *)
Theorem credential_precedence (ctx : Context) (p : process) :
  (forall e, supplies (GITHUB_TOKEN (env p)) e ->
     forall ctx', TS.getAuthHeaders ctx' p
       = (Return [("Accept", "application/vnd.github.v3+json");
                  ("User-Agent", "OpenClaw-GitHub-Skill");
                  ("Authorization", "token " ++ e)], p))
  /\ (forall e, supplies (GITHUB_USERNAME (env p)) e ->
     forall ctx', TS.getUsername ctx' p = (Return (VStr e), p))
  /\ (forall c, absent_or_empty (GITHUB_TOKEN (env p)) ->
     supplies (token (github_config ctx)) c ->
     TS.getAuthHeaders ctx p
       = (Return [("Accept", "application/vnd.github.v3+json");
                  ("User-Agent", "OpenClaw-GitHub-Skill");
                  ("Authorization", "token " ++ c)], p))
  /\ (forall c, absent_or_empty (GITHUB_USERNAME (env p)) ->
     supplies (username (github_config ctx)) c ->
     TS.getUsername ctx p = (Return (VStr c), p)).
Proof.
  repeat split.
  - intros e He ctx'. unfold TS.getAuthHeaders, bind, process_env.
    rewrite (truthy_str_supplies _ _ He), (tpl_supplies _ _ He). reflexivity.
  - intros e He ctx'. now apply getUsername_env.
  - intros c He Hc. unfold TS.getAuthHeaders, bind, process_env.
    rewrite (truthy_str_absent _ He), (truthy_str_supplies _ _ Hc),
      (tpl_supplies _ _ Hc). reflexivity.
  - intros c He Hc. now apply getUsername_config.
Qed.

Lemma credential_precedence_witness :
  let both := Sample.configured (Some "ghp_cfg") (Some "configured-user") in
  let p := Sample.fresh Sample.operator_env [] in
  let q := Sample.fresh Sample.no_env [] in
  (fst (TS.getAuthHeaders both p)
   = Return [("Accept", "application/vnd.github.v3+json");
             ("User-Agent", "OpenClaw-GitHub-Skill");
             ("Authorization", "token ghp_env")]
   /\ fst (TS.getUsername both p) = Return (VStr "operator"))
  /\ (fst (TS.getAuthHeaders both q)
      = Return [("Accept", "application/vnd.github.v3+json");
                ("User-Agent", "OpenClaw-GitHub-Skill");
                ("Authorization", "token ghp_cfg")]
      /\ fst (TS.getUsername both q) = Return (VStr "configured-user")).
Proof.
  intros both p q.
  destruct (credential_precedence both p) as (H1 & H2 & _ & _).
  destruct (credential_precedence both q) as (_ & _ & H3 & H4).
  split; split.
  - rewrite (H1 "ghp_env"); [reflexivity | split; [reflexivity | discriminate]].
  - rewrite (H2 "operator"); [reflexivity | split; [reflexivity | discriminate]].
  - rewrite (H3 "ghp_cfg"); [reflexivity | left; reflexivity
                             | split; [reflexivity | discriminate]].
  - rewrite (H4 "configured-user"); [reflexivity | left; reflexivity
                                     | split; [reflexivity | discriminate]].
Defined.

(* ------------------------------------------------------------------ *)
(** *** create_issue without a title *)

Lemma TS_createIssue_untitled args ctx p :
  absent_or_empty (is_title args) ->
  TS.createIssue args ctx p =
  match TS.getUsername ctx p with
  | (Return _, p1) => (Throw (Error "Issue title required"), p1)
  | (Throw e, p1) => (Throw e, p1)
  end.
Proof.
  intros H. unfold TS.createIssue, bind.
  destruct (TS.getUsername ctx p) as [[u|e] p1]; [|reflexivity].
  now rewrite (truthy_str_absent _ H).
Qed.

Lemma JS_createIssue_untitled args ctx p :
  absent_or_empty (is_title args) ->
  JS.createIssue args ctx p =
  match TS.getUsername ctx p with
  | (Return _, p1) => (Throw (Error "Issue title required"), p1)
  | (Throw e, p1) => (Throw e, p1)
  end.
Proof.
  intros H. unfold JS.createIssue, bind. rewrite getUsername_same.
  destruct (TS.getUsername ctx p) as [[u|e] p1]; [|reflexivity].
  now rewrite (truthy_str_absent _ H).
Qed.

(** C1 as the specification states it fails: in a fresh process with no
    configured username the identity lookup is sent before the title is
    looked at. *)
Lemma create_issue_lookup_precedes_validation :
  ~ create_issue_validates_before_network.
Proof.
  intros H.
  destruct (H (Sample.issue_args None) Sample.no_config
              (Sample.fresh Sample.no_env [Sample.answer_ok Sample.octocat]))
    as (msg & p' & Hrun & _ & Hsent); [left; reflexivity|].
  vm_compute in Hrun. inversion Hrun; subst p'. discriminate Hsent.
Qed.

(** C1, amended.  create_issue without a title never sends the issue
    creation request: the process it leaves is the one username resolution
    leaves, so the only request it can send is the one identity lookup; it
    throws in every case, with "Issue title required" as soon as the
    resolution returns, and sends nothing at all when the username needs
    no lookup.  Both renderings agree. *)
Theorem create_issue_missing_title args ctx p :
  absent_or_empty (is_title args) ->
  (exists e, fst (TS.createIssue args ctx p) = Throw e)
  /\ snd (TS.createIssue args ctx p) = snd (TS.getUsername ctx p)
  /\ (exists new,
        sent (snd (TS.createIssue args ctx p)) = (sent p ++ new)%list
        /\ (length new <= 1)%nat /\ Forall is_lookup new)
  /\ (forall u p1, TS.getUsername ctx p = (Return u, p1) ->
        TS.createIssue args ctx p = (Throw (Error "Issue title required"), p1))
  /\ JS.createIssue args ctx p = TS.createIssue args ctx p.
Proof.
  intros H.
  rewrite (JS_createIssue_untitled _ ctx p H), (TS_createIssue_untitled _ ctx p H).
  pose proof (getUsername_requests ctx p) as Hreq.
  destruct (TS.getUsername ctx p) as [[u|e] p1] eqn:Hu; simpl in *.
  - repeat split; eauto. intros u' p1' Heq. now inversion Heq.
  - repeat split; eauto. intros u' p1' Heq. discriminate Heq.
Qed.

Lemma create_issue_missing_title_witness :
  TS.createIssue (Sample.issue_args (Some "")) Sample.no_config
    (Sample.fresh Sample.operator_env [])
  = (Throw (Error "Issue title required"), Sample.fresh Sample.operator_env []).
Proof.
  destruct (create_issue_missing_title (Sample.issue_args (Some ""))
              Sample.no_config (Sample.fresh Sample.operator_env []))
    as (_ & _ & _ & H & _); [right; reflexivity|].
  apply (H (VStr "operator")). reflexivity.
Defined.

(* ------------------------------------------------------------------ *)
(** *** The username cache *)

(** C3 as the specification states it fails: a lookup that the transport
    fails caches nothing, so the next call looks up again and completes
    differently. *)
Lemma failed_lookup_is_repeated : ~ username_lookup_at_most_once.
Proof.
  intros H.
  destruct (H Sample.no_config
              (Sample.fresh Sample.no_env [Fails; Sample.answer_ok Sample.octocat])
              2%nat) as [Hn _]; [left; reflexivity | left; reflexivity |].
  vm_compute in Hn. lia.
Qed.

(** C3, amended.  When neither environment nor configuration supplies a
    username and the first lookup answers with a truthy login, any number of
    sequential calls sends exactly that one lookup and every call returns
    that login; with a login already cached no call sends anything; and a
    username supplied by environment or configuration is returned on every
    call with the process, hence the cache, untouched. *)
Theorem username_cached_after_first_lookup ctx p :
  (forall n r rest data login,
      absent_or_empty (GITHUB_USERNAME (env p)) ->
      absent_or_empty (username (github_config ctx)) ->
      truthy (cachedUser p) = false ->
      upstream p = Responds r :: rest ->
      body_json r = Some data ->
      get data "login" = Return login ->
      truthy login = true ->
      exists h,
        TS.getAuthHeaders ctx p = (Return h, p)
        /\ sequentially (S n) (TS.getUsername ctx) p
           = (repeat (Return login) (S n),
              with_cachedUser
                (after_request p (GET (GITHUB_API ++ "/user") h) rest) login))
  /\ (forall n,
      absent_or_empty (GITHUB_USERNAME (env p)) ->
      absent_or_empty (username (github_config ctx)) ->
      truthy (cachedUser p) = true ->
      sequentially n (TS.getUsername ctx) p
      = (repeat (Return (cachedUser p)) n, p))
  /\ (forall n s,
      supplies (GITHUB_USERNAME (env p)) s
      \/ (absent_or_empty (GITHUB_USERNAME (env p))
          /\ supplies (username (github_config ctx)) s) ->
      sequentially n (TS.getUsername ctx) p = (repeat (Return (VStr s)) n, p)).
Proof.
  split; [|split].
  - intros n r rest data login He Hc Ht Hup Hb Hl Hlogin.
    destruct (getUsername_lookup ctx p He Hc Ht) as (h & Hh & Hrun).
    exists h. split; [exact Hh|].
    cbv zeta in Hrun. rewrite Hup, Hb, Hl in Hrun.
    change (sequentially (S n) (TS.getUsername ctx) p)
      with (let (r0, p1) := TS.getUsername ctx p in
            let (rs, p2) := sequentially n (TS.getUsername ctx) p1 in
            (r0 :: rs, p2)).
    rewrite Hrun.
    rewrite (sequentially_stable ctx _ login); [reflexivity|].
    apply (getUsername_cached ctx
             (with_cachedUser (after_request p (GET (GITHUB_API ++ "/user") h) rest)
                login)); assumption.
  - intros n He Hc Ht. apply sequentially_stable.
    now apply getUsername_cached.
  - intros n s [Hs | [He Hs]]; apply sequentially_stable.
    + now apply getUsername_env.
    + now apply getUsername_config.
Qed.

Lemma username_cached_after_first_lookup_witness :
  exists p',
    sequentially 3 (TS.getUsername Sample.no_config)
      (Sample.fresh Sample.no_env [Sample.answer_ok Sample.octocat])
    = ([Return (VStr "octocat"); Return (VStr "octocat"); Return (VStr "octocat")],
       p')
    /\ length (sent p') = 1%nat.
Proof.
  destruct (username_cached_after_first_lookup Sample.no_config
              (Sample.fresh Sample.no_env [Sample.answer_ok Sample.octocat]))
    as (H & _ & _).
  destruct (H 2%nat {| status := 200; body_json := Some Sample.octocat |} []
              Sample.octocat (VStr "octocat"))
    as (h & Hh & Hrun);
    try reflexivity; try (left; reflexivity).
  eexists. split; [exact Hrun | reflexivity].
Defined.

(* ------------------------------------------------------------------ *)
(** *** Non-success answers *)

Lemma validation_pull_request a b c d :
  a && b && c && d = true ->
  negb a || negb b || negb c || negb d = false.
Proof. destruct a, b, c, d; simpl; congruence. Qed.

Lemma fetch_responds q p r rest :
  upstream p = Responds r :: rest ->
  fetch q p = (Return r, after_request p q rest).
Proof. intros H. unfold fetch. now rewrite H. Qed.

(** Runs an adapter symbolically up to the answer of its request. *)
Ltac run_to_answer ctx p Hup :=
  let h := fresh "h" in
  let Hh := fresh "Hh" in
  destruct (getAuthHeaders_quiet ctx p) as [h Hh];
  try rewrite authHeaders_same;
  rewrite (bind_Return _ _ _ _ _ Hh);
  erewrite bind_Return by (apply fetch_responds; exact Hup).

Lemma reason_error_run prefix r (p : process) :
  bind (json r) (fun error =>
    bind (lift (get error "message")) (fun m =>
      throw (Error (prefix ++ to_str (or_else m (VNum (status r))))))) p
  = (@Throw value (reason_error prefix r), p).
Proof.
  unfold reason_error, bind, json.
  destruct (body_json r) as [b|]; [|reflexivity].
  unfold ret, lift. destruct (get b "message"); reflexivity.
Qed.

Lemma non_success_raises ts a ctx p0 u p r rest :
  resolution a ctx p0 = (Return u, p) ->
  passes_validation ts a u = true ->
  upstream p = Responds r :: rest ->
  ok r = false ->
  exists q,
    handler_of ts a ctx p0 = (Throw (failure ts a r), after_request p q rest).
Proof.
  intros Hres Hval Hup Hok.
  destruct ts, a as [args|args|args|args|args|args|args|args];
    unfold resolution, keyed_by_user in Hres; cbv iota in Hres;
    simpl passes_validation in Hval;
    unfold handler_of, TS.handler, JS.handler, failure;
    try (unfold ret in Hres; inversion Hres; subst p0; clear Hres);
    cbv iota.
  all: try match goal with
       | |- context [TS.listRepos] => unfold TS.listRepos
       | |- context [TS.getRepo] => unfold TS.getRepo
       | |- context [TS.checkCIStatus] => unfold TS.checkCIStatus
       | |- context [TS.getRecentActivity] => unfold TS.getRecentActivity
       | |- context [TS.createIssue] => unfold TS.createIssue
       | |- context [TS.createRepo] => unfold TS.createRepo
       | |- context [TS.createPullRequest] => unfold TS.createPullRequest
       | |- context [TS.searchRepos] => unfold TS.searchRepos
       | |- context [JS.listRepos] => unfold JS.listRepos
       | |- context [JS.getRepo] => unfold JS.getRepo
       | |- context [JS.checkCIStatus] => unfold JS.checkCIStatus
       | |- context [JS.getRecentActivity] => unfold JS.getRecentActivity
       | |- context [JS.createIssue] => unfold JS.createIssue
       | |- context [JS.createRepo] => unfold JS.createRepo
       | |- context [JS.createPullRequest] => unfold JS.createPullRequest
       | |- context [JS.searchRepos] => unfold JS.searchRepos
       end.
  all: try rewrite getUsername_same.
  all: try (rewrite (bind_Return _ _ _ _ _ Hres)).
  all: cbv beta zeta.
  all: try rewrite Hval; try (rewrite (validation_pull_request _ _ _ _ Hval)).
  all: cbn [negb]; cbv iota.
  all: run_to_answer ctx p Hup.
  all: rewrite Hok; cbn [negb]; cbv iota.
  all: try rewrite reason_error_run.
  all: eexists; unfold throw, after_request, status_error; reflexivity.
Qed.

Lemma string_length_app (a b : string) :
  String.length (a ++ b) = (String.length a + String.length b)%nat.
Proof. induction a as [|c a IH]; simpl; [reflexivity | now rewrite IH]. Qed.

Lemma contains_length msg part :
  contains msg part -> (String.length part <= String.length msg)%nat.
Proof.
  intros (a & b & ->). rewrite !string_length_app. lia.
Qed.

(** C5 as the specification states it fails: list_repos answers a 403 that
    carries GitHub's reason with the status code alone. *)
Lemma list_repos_reports_status_only : ~ upstream_reason_always_reported.
Proof.
  intros H.
  destruct (H (list_repos (Sample.list_args None None)) Sample.no_config
              (Sample.fresh Sample.operator_env
                 [Sample.answer_status 403 Sample.rate_limited])
              (VStr "operator")
              {| status := 403; body_json := Some Sample.rate_limited |} []
              Sample.rate_limited "API rate limit exceeded"
              eq_refl eq_refl eq_refl eq_refl eq_refl
              _ _ eq_refl eq_refl) as (msg & Hmsg & Hc).
  vm_compute in Hmsg. inversion Hmsg; subst msg.
  apply contains_length in Hc. vm_compute in Hc. lia.
Qed.

(** C5, amended.  An adapter whose request is answered with a non-success
    status always throws and sends nothing further.  create_repo,
    create_pull_request and the TypeScript create_issue take the text from
    the parsed error body: its [message] when truthy, the numeric status
    code otherwise.  The other adapters never read the body: they report
    the numeric status code, and get_repo the owner/repo pair. *)
Theorem non_success_is_raised ts a ctx p0 u p r rest :
  resolution a ctx p0 = (Return u, p) ->
  passes_validation ts a u = true ->
  upstream p = Responds r :: rest ->
  ok r = false ->
  (exists e q, handler_of ts a ctx p0 = (Throw e, after_request p q rest))
  /\ (reports_reason ts a = true ->
      forall b m, body_json r = Some b -> get b "message" = Return m ->
      exists prefix,
        fst (handler_of ts a ctx p0)
        = Throw (Error (prefix ++ (if truthy m then to_str m
                                   else num_str (status r)))))
  /\ (reports_reason ts a = false ->
      (exists prefix,
         fst (handler_of ts a ctx p0) = Throw (Error (prefix ++ num_str (status r))))
      \/ (exists args,
            a = get_repo args
            /\ fst (handler_of ts a ctx p0)
               = Throw (Error ("Repo not found: " ++ tpl (rd_owner args) ++ "/"
                               ++ tpl (rd_repo args))))).
Proof.
  intros Hres Hval Hup Hok.
  destruct (non_success_raises ts a ctx p0 u p r rest Hres Hval Hup Hok)
    as [q Hrun].
  rewrite Hrun. cbn [fst]. split; [eauto | split].
  - intros Hrep b m Hb Hm.
    assert (Hf : exists prefix, failure ts a r = reason_error prefix r).
    { destruct ts, a; simpl in Hrep; try discriminate Hrep;
        eexists; reflexivity. }
    destruct Hf as [prefix ->]. exists prefix.
    unfold reason_error. rewrite Hb, Hm. unfold or_else.
    destruct (truthy m); reflexivity.
  - intros Hrep.
    destruct ts, a as [x|x|x|x|x|x|x|x]; simpl in Hrep; try discriminate Hrep;
      simpl failure; unfold status_error;
      first [ left; eexists; reflexivity
            | right; eexists; split; reflexivity ].
Qed.

Lemma non_success_is_raised_witness :
  exists prefix,
    fst (TS.createRepo Sample.new_repo_args Sample.no_config
           (Sample.fresh Sample.operator_env
              [Sample.answer_status 422 Sample.name_taken]))
    = Throw (Error (prefix ++ "name already exists on this account")).
Proof.
  destruct (non_success_is_raised true (create_repo Sample.new_repo_args)
              Sample.no_config
              (Sample.fresh Sample.operator_env
                 [Sample.answer_status 422 Sample.name_taken])
              (VStr "operator")
              (Sample.fresh Sample.operator_env
                 [Sample.answer_status 422 Sample.name_taken])
              {| status := 422; body_json := Some Sample.name_taken |} []
              eq_refl eq_refl eq_refl eq_refl) as (_ & H & _).
  destruct (H eq_refl Sample.name_taken
              (VStr "name already exists on this account") eq_refl eq_refl)
    as [prefix Hp].
  exists prefix. exact Hp.
Defined.

(* ------------------------------------------------------------------ *)
(** *** create_pull_request *)

Ltac solve_quiet :=
  repeat first
    [ apply quiet_ret | apply quiet_throw | apply quiet_lift | apply quiet_json
    | apply quiet_if | (apply quiet_bind; [|intro]) ].

Lemma bind_quiet_tail {A B} (c : M A) (k : A -> M B) p :
  (forall a, quiet (k a)) -> snd (bind c k p) = snd (c p).
Proof.
  intros H. unfold bind. destruct (c p) as [[a|e] p1]; [apply H | reflexivity].
Qed.

Lemma fetch_sent q p : sent (snd (fetch q p)) = (sent p ++ [q])%list.
Proof. unfold fetch. destruct (upstream p) as [|[r|] rest]; reflexivity. Qed.

Lemma validation_fails_right a b c d :
  c = false \/ d = false -> negb a || negb b || negb c || negb d = true.
Proof. intros [-> | ->]; destruct a, b; simpl; try destruct c; reflexivity. Qed.

Lemma TS_pull_request_contract :
  pull_request_contract TS.getUsername TS.createPullRequest.
Proof.
  intros args ctx p0 u p Hu. split.
  - intros Hmiss. unfold TS.createPullRequest.
    rewrite (bind_Return _ _ _ _ _ Hu). cbv beta zeta.
    rewrite validation_fails_right; [reflexivity|].
    destruct Hmiss as [H | H]; [left | right]; now apply truthy_str_absent.
  - intros repo title head Howner Hut Hrepo Htitle Hhead.
    unfold TS.createPullRequest.
    rewrite (bind_Return _ _ _ _ _ Hu). cbv beta zeta.
    rewrite Howner. cbn [str_val or_else truthy]. rewrite Hut.
    rewrite (truthy_str_supplies _ _ Hrepo), (truthy_str_supplies _ _ Htitle),
      (truthy_str_supplies _ _ Hhead), (tpl_supplies _ _ Hrepo).
    cbn [negb orb]. cbv iota.
    destruct (getAuthHeaders_quiet ctx p) as [h Hh].
    rewrite (bind_Return _ _ _ _ _ Hh).
    rewrite bind_quiet_tail by (intro; solve_quiet).
    rewrite fetch_sent.
    eexists; eexists. split; [reflexivity|]. repeat split.
Qed.

(** C6 as the specification states it fails: the JavaScript rendering
    rejects a pull request without an owner instead of falling back. *)
Lemma JS_pull_request_requires_owner : ~ pull_request_owner_falls_back.
Proof.
  intros [_ H].
  destruct (H (Sample.pr_args None (Some "Add gears")) Sample.no_config
              (Sample.fresh Sample.operator_env [])
              (VStr "operator")
              (Sample.fresh Sample.operator_env []) eq_refl) as [_ Hurl].
  destruct (Hurl "widget" "Add gears" "feature" eq_refl eq_refl)
    as (q & fs & Hsent & _);
    try (split; [reflexivity | discriminate]).
  vm_compute in Hsent. discriminate Hsent.
Qed.

(** C6, amended.  In the TypeScript rendering an omitted owner is replaced
    by the acting username in the request URL, an omitted base is "main",
    and a missing title or head is a validation error, all once username
    resolution has returned.  The JavaScript rendering requires the owner:
    without one it throws the same validation error and sends no request;
    with one it uses it in the URL, with the same default base and the same
    validation of title and head. *)
Theorem pull_request_owner_and_defaults :
  pull_request_contract TS.getUsername TS.createPullRequest
  /\ (forall args ctx p0 u p,
        JS.getUsername ctx p0 = (Return u, p) ->
        (absent_or_empty (pr_owner args) \/ absent_or_empty (pr_title args)
         \/ absent_or_empty (pr_head args) ->
         JS.createPullRequest args ctx p0
         = (Throw (Error "owner, repo, title, and head are required"), p))
        /\ (forall owner repo title head,
              supplies (pr_owner args) owner ->
              supplies (pr_repo args) repo ->
              supplies (pr_title args) title ->
              supplies (pr_head args) head ->
              exists q fs,
                sent (snd (JS.createPullRequest args ctx p0)) = (sent p ++ [q])%list
                /\ meth q = "POST"
                /\ url q = GITHUB_API ++ "/repos/" ++ owner ++ "/" ++ repo ++ "/pulls"
                /\ body q = Some (VObj fs)
                /\ lookup "base" fs = Some (VStr (dflt "main" (pr_base args))))).
Proof.
  split; [exact TS_pull_request_contract|].
  intros args ctx p0 u p Hu. split.
  - intros Hmiss. unfold JS.createPullRequest.
    rewrite (bind_Return _ _ _ _ _ Hu). cbv beta zeta.
    destruct Hmiss as [H | Hmiss].
    + rewrite (truthy_str_absent _ H). reflexivity.
    + rewrite validation_fails_right; [reflexivity|].
      destruct Hmiss as [H | H]; [left | right]; now apply truthy_str_absent.
  - intros owner repo title head Howner Hrepo Htitle Hhead.
    unfold JS.createPullRequest.
    rewrite (bind_Return _ _ _ _ _ Hu). cbv beta zeta.
    rewrite (truthy_str_supplies _ _ Howner), (truthy_str_supplies _ _ Hrepo),
      (truthy_str_supplies _ _ Htitle), (truthy_str_supplies _ _ Hhead),
      (tpl_supplies _ _ Hrepo), (tpl_supplies _ _ Howner).
    cbn [negb orb]. cbv iota.
    rewrite authHeaders_same.
    destruct (getAuthHeaders_quiet ctx p) as [h Hh].
    rewrite (bind_Return _ _ _ _ _ Hh).
    rewrite bind_quiet_tail by (intro; solve_quiet).
    rewrite fetch_sent.
    eexists; eexists. split; [reflexivity|]. repeat split.
Qed.

Lemma pull_request_owner_and_defaults_witness :
  exists q fs,
    sent (snd (TS.createPullRequest (Sample.pr_args None (Some "Add gears"))
                 Sample.no_config (Sample.fresh Sample.operator_env [])))
    = [q]
    /\ meth q = "POST"
    /\ url q = "https://api.github.com/repos/operator/widget/pulls"
    /\ body q = Some (VObj fs)
    /\ lookup "base" fs = Some (VStr "main").
Proof.
  destruct pull_request_owner_and_defaults as [H _].
  destruct (H (Sample.pr_args None (Some "Add gears")) Sample.no_config
              (Sample.fresh Sample.operator_env [])
              (VStr "operator")
              (Sample.fresh Sample.operator_env []) eq_refl) as [_ Hurl].
  destruct (Hurl "widget" "Add gears" "feature" eq_refl eq_refl)
    as (q & fs & Hq);
    try (split; [reflexivity | discriminate]).
  exists q, fs. exact Hq.
Defined.

(* ------------------------------------------------------------------ *)
(** *** The two renderings side by side *)

Lemma bind_ext {A B} (c : M A) (k1 k2 : A -> M B) p :
  (forall a p', k1 a p' = k2 a p') -> bind c k1 p = bind c k2 p.
Proof.
  intros H. unfold bind. destruct (c p) as [[a|e] p1]; [apply H | reflexivity].
Qed.

(** A relation between two runs that holds after a common prefix as soon as
    it holds for the continuations and for a throw of the prefix. *)
Lemma bind_related {A B}
    (R : completion B * process -> completion B * process -> Prop)
    (c : M A) (k1 k2 : A -> M B) p :
  (forall e p', R (Throw e, p') (Throw e, p')) ->
  (forall a p', R (k1 a p') (k2 a p')) ->
  R (bind c k1 p) (bind c k2 p).
Proof.
  intros Ht Hk. unfold bind. destruct (c p) as [[a|e] p1]; [apply Hk | apply Ht].
Qed.

Ltac same_prefix :=
  apply bind_same_process; intros ? ?; cbv beta zeta.

(** After the common prefix (username, validation, headers, request) the
    two renderings only shape the answer. *)
Ltac same_requests :=
  rewrite ?getUsername_same, ?authHeaders_same;
  repeat first
    [ reflexivity
    | same_prefix
    | match goal with
      | |- snd ((if ?b then _ else _) _) = snd ((if ?b then _ else _) _) =>
          destruct b
      end
    | (apply quiet_same_process; solve_quiet; fail) ].

Lemma pull_request_same args ctx p :
  truthy_str (pr_owner args) = true ->
  JS.createPullRequest args ctx p = TS.createPullRequest args ctx p.
Proof.
  intros Howner. unfold JS.createPullRequest, TS.createPullRequest.
  rewrite getUsername_same. apply bind_ext. intros u p1. cbv beta zeta.
  assert (Hor : or_else (str_val (pr_owner args)) u = str_val (pr_owner args)).
  { unfold or_else.
    change (truthy (str_val (pr_owner args))) with (truthy_str (pr_owner args)).
    now rewrite Howner. }
  rewrite Hor. reflexivity.
Qed.

Lemma same_requests_sent a ctx p :
  names_owner a = true ->
  snd (JS.handler a ctx p) = snd (TS.handler a ctx p).
Proof.
  intros Hown.
  destruct a as [args|args|args|args|args|args|args|args];
    unfold JS.handler, TS.handler.
  - unfold JS.listRepos, TS.listRepos. same_requests.
  - reflexivity.
  - unfold JS.checkCIStatus, TS.checkCIStatus. same_requests.
  - reflexivity.
  - unfold JS.createIssue, TS.createIssue. same_requests.
  - unfold JS.createRepo, TS.createRepo. same_requests.
  - now rewrite pull_request_same.
  - unfold JS.searchRepos, TS.searchRepos. same_requests.
Qed.

Lemma create_issue_same_results args ctx p v :
  fst (JS.createIssue args ctx p) = Return v
  <-> fst (TS.createIssue args ctx p) = Return v.
Proof.
  unfold JS.createIssue, TS.createIssue. rewrite getUsername_same.
  apply (bind_related (fun x y => fst x = Return v <-> fst y = Return v));
    [reflexivity|]. intros u p1. cbv beta zeta.
  destruct (negb (truthy_str (is_title args))); [reflexivity|].
  rewrite authHeaders_same.
  apply (bind_related (fun x y => fst x = Return v <-> fst y = Return v));
    [reflexivity|]. intros h p2.
  apply (bind_related (fun x y => fst x = Return v <-> fst y = Return v));
    [reflexivity|]. intros r p3.
  destruct (negb (ok r)); [|reflexivity].
  rewrite reason_error_run. unfold throw. cbn [fst]. split; discriminate.
Qed.

(** Inputs on which the two renderings complete differently, one for each
    action whose shaping or error differs. *)
Lemma list_repos_differs :
  fst (JS.listRepos (Sample.list_args None None) Sample.no_config
         (Sample.fresh Sample.operator_env [Sample.answer_ok Sample.three_repos]))
  <> fst (TS.listRepos (Sample.list_args None None) Sample.no_config
            (Sample.fresh Sample.operator_env [Sample.answer_ok Sample.three_repos])).
Proof. vm_compute. discriminate. Qed.

Lemma check_ci_status_differs :
  fst (JS.checkCIStatus Fixture.widget_ci Sample.no_config
         (Sample.fresh Sample.no_env [Sample.answer_ok Fixture.two_runs]))
  <> fst (TS.checkCIStatus Fixture.widget_ci Sample.no_config
            (Sample.fresh Sample.no_env [Sample.answer_ok Fixture.two_runs])).
Proof. vm_compute. discriminate. Qed.

Lemma create_repo_differs :
  fst (JS.createRepo Sample.new_repo_args Sample.no_config
         (Sample.fresh Sample.operator_env
            [Sample.answer_status 201 (Sample.repo_of "widget" VNull)]))
  <> fst (TS.createRepo Sample.new_repo_args Sample.no_config
            (Sample.fresh Sample.operator_env
               [Sample.answer_status 201 (Sample.repo_of "widget" VNull)])).
Proof. vm_compute. discriminate. Qed.

Lemma search_repos_differs :
  fst (JS.searchRepos (Sample.search_args "gears" None) Sample.no_config
         (Sample.fresh Sample.operator_env [Sample.answer_ok Sample.found_two]))
  <> fst (TS.searchRepos (Sample.search_args "gears" None) Sample.no_config
            (Sample.fresh Sample.operator_env [Sample.answer_ok Sample.found_two])).
Proof. vm_compute. discriminate. Qed.

Lemma create_issue_error_differs :
  fst (JS.createIssue (Sample.issue_args (Some "Gears slip")) Sample.no_config
         (Sample.fresh Sample.operator_env
            [Sample.answer_status 422 Sample.name_taken]))
  <> fst (TS.createIssue (Sample.issue_args (Some "Gears slip")) Sample.no_config
            (Sample.fresh Sample.operator_env
               [Sample.answer_status 422 Sample.name_taken])).
Proof. vm_compute. discriminate. Qed.

Lemma pull_request_without_owner_differs :
  JS.createPullRequest (Sample.pr_args None (Some "Add gears")) Sample.no_config
    (Sample.fresh Sample.operator_env [])
  <> TS.createPullRequest (Sample.pr_args None (Some "Add gears")) Sample.no_config
       (Sample.fresh Sample.operator_env []).
Proof. vm_compute. discriminate. Qed.

(** C7 as the specification states it fails: without an owner the
    JavaScript create_pull_request throws the validation error and sends
    nothing, where the TypeScript one sends the request under the acting
    username. *)
Lemma renderings_differ : ~ renderings_equivalent.
Proof.
  intros H. apply pull_request_without_owner_differs.
  exact (H (create_pull_request (Sample.pr_args None (Some "Add gears")))
           Sample.no_config (Sample.fresh Sample.operator_env [])).
Qed.

(** C7, amended.  The two renderings have the same credential resolver and
    the same get_repo and get_recent_activity; create_pull_request is the
    same whenever an owner is given; every action other than a pull request
    without owner sends the same requests and leaves the same process in
    both; and create_issue returns the same result in both whenever either
    returns one.  Beyond that they are not equivalent: there are inputs on
    which list_repos, check_ci_status, create_repo and search_repos return
    different results, on which create_issue throws different errors, and
    on which create_pull_request without owner behaves differently. *)
Theorem renderings_agree :
  (forall ctx, JS.authHeaders ctx = TS.getAuthHeaders ctx
               /\ JS.getUsername ctx = TS.getUsername ctx)
  /\ (forall args ctx, JS.getRepo args ctx = TS.getRepo args ctx)
  /\ (forall args ctx, JS.getRecentActivity args ctx = TS.getRecentActivity args ctx)
  /\ (forall args ctx p,
        truthy_str (pr_owner args) = true ->
        JS.createPullRequest args ctx p = TS.createPullRequest args ctx p)
  /\ (forall a ctx p,
        names_owner a = true ->
        snd (JS.handler a ctx p) = snd (TS.handler a ctx p))
  /\ (forall args ctx p v,
        fst (JS.createIssue args ctx p) = Return v
        <-> fst (TS.createIssue args ctx p) = Return v)
  /\ (exists args ctx p,
        fst (JS.listRepos args ctx p) <> fst (TS.listRepos args ctx p))
  /\ (exists args ctx p,
        fst (JS.checkCIStatus args ctx p) <> fst (TS.checkCIStatus args ctx p))
  /\ (exists args ctx p,
        fst (JS.createRepo args ctx p) <> fst (TS.createRepo args ctx p))
  /\ (exists args ctx p,
        fst (JS.searchRepos args ctx p) <> fst (TS.searchRepos args ctx p))
  /\ (exists args ctx p e1 e2,
        fst (JS.createIssue args ctx p) = Throw e1
        /\ fst (TS.createIssue args ctx p) = Throw e2
        /\ e1 <> e2)
  /\ (exists args ctx p,
        pr_owner args = None
        /\ JS.createPullRequest args ctx p <> TS.createPullRequest args ctx p).
Proof.
  split; [intro; split; reflexivity|].
  split; [reflexivity|].
  split; [reflexivity|].
  split; [exact pull_request_same|].
  split; [exact same_requests_sent|].
  split; [exact create_issue_same_results|].
  split; [do 3 eexists; exact list_repos_differs|].
  split; [do 3 eexists; exact check_ci_status_differs|].
  split; [do 3 eexists; exact create_repo_differs|].
  split; [do 3 eexists; exact search_repos_differs|].
  split.
  - exists (Sample.issue_args (Some "Gears slip")), Sample.no_config,
      (Sample.fresh Sample.operator_env
         [Sample.answer_status 422 Sample.name_taken]).
    do 2 eexists. split; [reflexivity | split; [reflexivity | discriminate]].
  - do 3 eexists. split; [|exact pull_request_without_owner_differs].
    reflexivity.
Qed.

Lemma renderings_agree_witness :
  JS.createPullRequest (Sample.pr_args (Some "acme") (Some "Add gears"))
    Sample.no_config (Sample.fresh Sample.operator_env [])
  = TS.createPullRequest (Sample.pr_args (Some "acme") (Some "Add gears"))
      Sample.no_config (Sample.fresh Sample.operator_env []).
Proof.
  destruct renderings_agree as (_ & _ & _ & H & _).
  apply H. reflexivity.
Defined.

(* ================================================================== *)
(** ** Inversion of successful runs *)
(* ================================================================== *)

Lemma bind_inv {A B} (c : M A) (k : A -> M B) p b p' :
  bind c k p = (Return b, p') ->
  exists a p1, c p = (Return a, p1) /\ k a p1 = (Return b, p').
Proof.
  unfold bind. destruct (c p) as [[a|e] p1]; [eauto | discriminate].
Qed.

Lemma cbind_inv {A B} (c : completion A) (k : A -> completion B) b :
  cbind c k = Return b -> exists a, c = Return a /\ k a = Return b.
Proof. destruct c as [a|e]; simpl; [eauto | discriminate]. Qed.

Lemma obj_fields_inv k c l fs :
  obj_fields ((k, c) :: l) = Return fs ->
  exists v fs', c = Return v /\ obj_fields l = Return fs' /\ fs = (k, v) :: fs'.
Proof.
  simpl. intros H. apply cbind_inv in H as (v & Hv & H).
  apply cbind_inv in H as (fs' & Hfs & H). inversion H. eauto.
Qed.

Lemma object_inv l res :
  object l = Return res -> exists fs, obj_fields l = Return fs /\ res = VObj fs.
Proof.
  unfold object. intros H. apply cbind_inv in H as (fs & Hfs & H).
  inversion H. eauto.
Qed.

(** Takes an object literal that evaluated apart, field by field. *)
Ltac invert_object H :=
  let fs := fresh "fs" in
  apply object_inv in H as (fs & H & ->);
  repeat (let v := fresh "v" in let fs' := fresh "fs" in
          let Hv := fresh "Hfield" in
          apply obj_fields_inv in H as (v & fs' & Hv & H & ->));
  simpl in H; inversion H; subst; clear H.

Lemma fetch_inv q p r p1 :
  fetch q p = (Return r, p1) ->
  exists rest, upstream p = Responds r :: rest /\ p1 = after_request p q rest.
Proof.
  unfold fetch. destruct (upstream p) as [|[r'|] rest]; try discriminate.
  intros H. inversion H; subst. now exists rest.
Qed.

Lemma json_inv r p v p1 :
  json r p = (Return v, p1) -> body_json r = Some v /\ p1 = p.
Proof.
  unfold json. destruct (body_json r); [|discriminate].
  unfold ret. intros H. inversion H. now subst.
Qed.

Lemma lift_inv {A} (c : completion A) p v p1 :
  lift c p = (Return v, p1) -> c = Return v /\ p1 = p.
Proof. unfold lift. intros H. inversion H. now subst. Qed.

Lemma choice_inv {A} (b : bool) (c : completion A) (a : A) p v p1 :
  (if b then lift c else ret a) p = (Return v, p1) ->
  (if b then c else Return a) = Return v /\ p1 = p.
Proof.
  destruct b; [apply lift_inv|]. unfold ret. intros H. inversion H. now subst.
Qed.

Lemma getAuthHeaders_inv ctx p h p1 :
  TS.getAuthHeaders ctx p = (Return h, p1) -> p1 = p.
Proof.
  destruct (getAuthHeaders_quiet ctx p) as [h' ->]. intros H. now inversion H.
Qed.

(** The common prefix of a user-keyed adapter that returned: username,
    headers, request, and an answer with a success status. *)
Ltac invert_prefix H u p r rest Hu Hup :=
  let h := fresh "h" in
  let p2 := fresh "p" in
  let p3 := fresh "p" in
  let Hh := fresh "Hh" in
  let Hf := fresh "Hf" in
  apply bind_inv in H as (u & p & Hu & H); cbv beta zeta in H;
  try match type of H with
      | (if ?b then _ else _) _ = _ =>
          destruct b eqn:?; [discriminate H|]
      end;
  rewrite ?authHeaders_same in H;
  apply bind_inv in H as (h & p2 & Hh & H);
  apply getAuthHeaders_inv in Hh; subst p2;
  apply bind_inv in H as (r & p3 & Hf & H);
  apply fetch_inv in Hf as (rest & Hup & ->).

Ltac invert_step H :=
  match type of H with
  | bind (json _) _ _ = _ =>
      let v := fresh "v" in let p := fresh "p" in let Hj := fresh "Hj" in
      apply bind_inv in H as (v & p & Hj & H);
      apply json_inv in Hj as [Hj ->]
  | bind (lift _) _ _ = _ =>
      let v := fresh "v" in let p := fresh "p" in let Hl := fresh "Hl" in
      apply bind_inv in H as (v & p & Hl & H);
      apply lift_inv in Hl as [Hl ->]
  | lift _ _ = _ => apply lift_inv in H as [H ->]
  end.

(** *** Lists, slices and callbacks *)

Lemma slice_count_le_len len e : (slice_count len e <= len)%nat.
Proof. unfold slice_count. destruct (e <? 0) eqn:He; lia. Qed.

Lemma slice_count_le e len : 0 <= e -> Z.of_nat (slice_count len e) <= e.
Proof. intros H. unfold slice_count. destruct (Z.ltb_spec e 0); lia. Qed.

Lemma slice0_length {A} e (l : list A) :
  length (slice0 e l) = slice_count (length l) e.
Proof.
  unfold slice0. apply firstn_length_le, slice_count_le_len.
Qed.


Lemma substring0_length n s : (String.length (String.substring 0 n s) <= n)%nat.
Proof.
  revert s. induction n as [|n IH]; intros [|c s]; simpl; try lia.
  specialize (IH s). lia.
Qed.

Lemma slice_bounded v e sliced n :
  0 <= e ->
  js_slice v e = Return sliced ->
  js_length sliced = Return (VNum n) ->
  n <= e.
Proof.
  intros He Hs Hn. destruct v; simpl in Hs; try discriminate;
    inversion Hs; subst sliced; simpl in Hn; inversion Hn; subst n.
  - unfold str_slice0.
    pose proof (substring0_length (slice_count (String.length s) e) s).
    pose proof (slice_count_le e (String.length s) He). lia.
  - rewrite slice0_length. now apply slice_count_le.
Qed.

Lemma map_c_length {A B} (f : A -> completion B) l ys :
  map_c f l = Return ys -> length ys = length l.
Proof.
  revert ys. induction l as [|x l IH]; simpl; intros ys H.
  - now inversion H.
  - apply cbind_inv in H as (y & _ & H).
    apply cbind_inv in H as (ys' & Hys & H).
    inversion H; subst. simpl. f_equal. now apply IH.
Qed.

Lemma map_c_Forall2 {A B} (f : A -> completion B) l ys :
  map_c f l = Return ys -> Forall2 (fun x y => f x = Return y) l ys.
Proof.
  revert ys. induction l as [|x l IH]; simpl; intros ys H.
  - inversion H. constructor.
  - apply cbind_inv in H as (y & Hy & H).
    apply cbind_inv in H as (ys' & Hys & H).
    inversion H; subst. constructor; [assumption | now apply IH].
Qed.

Lemma language_matches_total language r b :
  language_matches language r = Return b -> b = has_language language r.
Proof.
  unfold language_matches, has_language. intros H.
  apply cbind_inv in H as (l & Hl & H). rewrite Hl.
  destruct l; simpl in H; inversion H; reflexivity.
Qed.

Lemma filter_c_language language rs kept :
  filter_c (language_matches language) rs = Return kept ->
  kept = filter (has_language language) rs.
Proof.
  revert kept. induction rs as [|x rs IH]; simpl; intros kept H.
  - now inversion H.
  - apply cbind_inv in H as (b & Hb & H).
    apply cbind_inv in H as (ys & Hys & H).
    apply language_matches_total in Hb. subst b.
    inversion H; subst. now rewrite (IH ys).
Qed.




(** *** list_repos *)

Lemma TS_listRepos_inv args ctx p0 res p' :
  TS.listRepos args ctx p0 = (Return res, p') ->
  exists u p r rest repos filtered sliced total,
    TS.getUsername ctx p0 = (Return u, p)
    /\ upstream p = Responds r :: rest
    /\ body_json r = Some repos
    /\ (if truthy_str (rl_language args)
        then js_filter repos (language_matches (tpl (rl_language args)))
        else Return repos) = Return filtered
    /\ js_slice filtered (dflt 30 (rl_limit args)) = Return sliced
    /\ js_length sliced = Return total
    /\ res = VObj [("total", total); ("repos", sliced)].
Proof.
  intros H. unfold TS.listRepos in H.
  invert_prefix H u p r rest Hu Hup.
  destruct (negb (ok r)); [discriminate H|].
  invert_step H.
  apply bind_inv in H as (filtered & p1 & Hf & H).
  apply choice_inv in Hf as [Hf ->].
  invert_step H. invert_step H.
  invert_object H.
  match goal with Hr : Return _ = Return _ |- _ => inversion Hr; subst end.
  do 8 eexists. repeat split; eassumption.
Qed.

Lemma JS_listRepos_inv args ctx p0 res p' :
  JS.listRepos args ctx p0 = (Return res, p') ->
  exists u p r rest repos filtered sliced total mapped,
    TS.getUsername ctx p0 = (Return u, p)
    /\ upstream p = Responds r :: rest
    /\ body_json r = Some repos
    /\ (if truthy_str (rl_language args)
        then js_filter repos (language_matches (tpl (rl_language args)))
        else Return repos) = Return filtered
    /\ js_slice filtered (num_or (rl_limit args) 30) = Return sliced
    /\ js_length sliced = Return total
    /\ js_map sliced JS.shape_repo = Return mapped
    /\ res = VObj [("total", total); ("repos", mapped)].
Proof.
  intros H. unfold JS.listRepos in H. rewrite getUsername_same in H.
  invert_prefix H u p r rest Hu Hup.
  destruct (negb (ok r)); [discriminate H|].
  invert_step H.
  apply bind_inv in H as (filtered & p1 & Hf & H).
  apply choice_inv in Hf as [Hf ->].
  invert_step H. invert_step H.
  invert_object H.
  do 9 eexists. repeat split; eassumption.
Qed.

Lemma num_or_positive o d : 0 < dflt d o -> num_or o d = dflt d o.
Proof.
  destruct o as [n|]; simpl; [|reflexivity].
  intros H. destruct (Z.eqb_spec n 0); [lia | reflexivity].
Qed.

Lemma js_map_array v f mapped :
  js_map v f = Return mapped ->
  exists l ys, v = VArr l /\ map_c f l = Return ys /\ mapped = VArr ys.
Proof.
  destruct v; simpl; try discriminate. intros H.
  apply cbind_inv in H as (ys & Hys & H). inversion H. eauto.
Qed.

Lemma js_filter_array v f filtered :
  js_filter v f = Return filtered ->
  exists l ys, v = VArr l /\ filter_c f l = Return ys /\ filtered = VArr ys.
Proof.
  destruct v; simpl; try discriminate. intros H.
  apply cbind_inv in H as (ys & Hys & H). inversion H. eauto.
Qed.

(** *** search_repos *)

Lemma TS_searchRepos_inv args ctx p0 res p' :
  TS.searchRepos args ctx p0 = (Return res, p') ->
  exists u p r rest data total items found,
    TS.getUsername ctx p0 = (Return u, p)
    /\ upstream p = Responds r :: rest
    /\ body_json r = Some data
    /\ get data "items" = Return items
    /\ js_map (or_else items (VArr [])) TS.shape_found = Return found
    /\ res = VObj [("total", total); ("repos", found)].
Proof.
  intros H. unfold TS.searchRepos in H.
  invert_prefix H u p r rest Hu Hup.
  destruct (negb (ok r)); [discriminate H|].
  invert_step H. invert_step H.
  invert_object H.
  match goal with
  | Hc : cbind _ _ = Return _ |- _ =>
      apply cbind_inv in Hc as (items & Hitems & Hfound)
  end.
  do 8 eexists. repeat split; eassumption.
Qed.

Lemma JS_searchRepos_inv args ctx p0 res p' :
  JS.searchRepos args ctx p0 = (Return res, p') ->
  exists u p r rest data total items mapped,
    TS.getUsername ctx p0 = (Return u, p)
    /\ upstream p = Responds r :: rest
    /\ body_json r = Some data
    /\ get data "items" = Return items
    /\ (if nullish items then Return VUndef else js_map items JS.shape_found)
       = Return mapped
    /\ res = VObj [("total", total); ("repos", or_else mapped (VArr []))].
Proof.
  intros H. unfold JS.searchRepos in H. rewrite getUsername_same in H.
  invert_prefix H u p r rest Hu Hup.
  destruct (negb (ok r)); [discriminate H|].
  invert_step H. invert_step H.
  invert_object H.
  match goal with
  | Hc : cbind _ _ = Return _ |- _ =>
      apply cbind_inv in Hc as (items & Hitems & Hc);
      apply cbind_inv in Hc as (mapped & Hmapped & Hc);
      inversion Hc; subst
  end.
  do 8 eexists. repeat split; eassumption.
Qed.

(** The number of repositories the upstream put in [items]. *)
Lemma found_as_many_TS items found :
  js_map (or_else items (VArr [])) TS.shape_found = Return found ->
  exists ys, found = VArr ys
             /\ length ys = match items with VArr l => length l | _ => 0%nat end.
Proof.
  intros H. apply js_map_array in H as (l & ys & Hl & Hys & ->).
  exists ys. split; [reflexivity|].
  apply map_c_length in Hys. rewrite Hys.
  unfold or_else in Hl.
  destruct items; simpl in Hl; try (inversion Hl; reflexivity);
    repeat match type of Hl with
           | (if ?b then _ else _) = _ => destruct b
           end; try discriminate Hl; inversion Hl; reflexivity.
Qed.

Lemma found_as_many_JS items mapped :
  (if nullish items then Return VUndef else js_map items JS.shape_found)
  = Return mapped ->
  exists ys, or_else mapped (VArr []) = VArr ys
             /\ length ys = match items with VArr l => length l | _ => 0%nat end.
Proof.
  intros H. destruct (nullish items) eqn:Hn.
  - inversion H; subst mapped. exists []. split; [reflexivity|].
    destruct items; try discriminate Hn; reflexivity.
  - apply js_map_array in H as (l & ys & -> & Hys & ->).
    exists ys. split; [reflexivity|]. now apply map_c_length in Hys.
Qed.

(* ------------------------------------------------------------------ *)
(** *** The limit of list_repos and search_repos *)

(** C4 as the specification states it fails: search_repos returns every
    item the upstream sent, here two for a limit of one. *)
Lemma search_repos_ignores_limit : ~ repos_bounded_by_limit.
Proof.
  intros [_ H].
  pose proof (H (Sample.search_args "gears" (Some 1)) Sample.no_config
                (Sample.fresh Sample.operator_env [Sample.answer_ok Sample.found_two])
                _ _ _ 2 eq_refl eq_refl eq_refl) as Hle.
  simpl in Hle. lia.
Qed.

(** C4, amended.  list_repos never returns more than [limit] repositories
    (default 30): for every non-negative limit in the TypeScript rendering
    and every positive limit in the JavaScript one.  search_repos does not
    truncate: it returns one repository per element of the upstream
    [items], whatever the limit. *)
Theorem list_repos_bounded_search_unbounded :
  (forall args ctx p res p' repos n,
      0 <= dflt 30 (rl_limit args) ->
      TS.listRepos args ctx p = (Return res, p') ->
      get res "repos" = Return repos ->
      js_length repos = Return (VNum n) ->
      n <= dflt 30 (rl_limit args))
  /\ (forall args ctx p res p' repos n,
      0 < dflt 30 (rl_limit args) ->
      JS.listRepos args ctx p = (Return res, p') ->
      get res "repos" = Return repos ->
      js_length repos = Return (VNum n) ->
      n <= dflt 30 (rl_limit args))
  /\ (forall (ts : bool) args ctx p0 res p',
      (if ts then TS.searchRepos args ctx p0 else JS.searchRepos args ctx p0)
      = (Return res, p') ->
      exists u p r rest data items found,
        TS.getUsername ctx p0 = (Return u, p)
        /\ upstream p = Responds r :: rest
        /\ body_json r = Some data
        /\ get data "items" = Return items
        /\ get res "repos" = Return (VArr found)
        /\ length found = match items with VArr l => length l | _ => 0%nat end).
Proof.
  split; [|split].
  - intros args ctx p res p' repos n Hlim Hrun Hrepos Hn.
    apply TS_listRepos_inv in Hrun
      as (u & p1 & r & rest & rs & filtered & sliced & total
          & _ & _ & _ & _ & Hs & _ & ->).
    simpl in Hrepos. inversion Hrepos; subst repos.
    exact (slice_bounded _ _ _ _ Hlim Hs Hn).
  - intros args ctx p res p' repos n Hlim Hrun Hrepos Hn.
    apply JS_listRepos_inv in Hrun
      as (u & p1 & r & rest & rs & filtered & sliced & total & mapped
          & _ & _ & _ & _ & Hs & _ & Hm & ->).
    simpl in Hrepos. inversion Hrepos; subst repos.
    rewrite (num_or_positive _ _ Hlim) in Hs.
    apply js_map_array in Hm as (l & ys & -> & Hys & ->).
    apply map_c_length in Hys. simpl in Hn. rewrite Hys in Hn.
    apply (slice_bounded _ _ (VArr l) n (Z.lt_le_incl _ _ Hlim) Hs). exact Hn.
  - intros [|] args ctx p0 res p' Hrun.
    + apply TS_searchRepos_inv in Hrun
        as (u & p & r & rest & data & total & items & found
            & Hu & Hup & Hb & Hi & Hf & ->).
      apply found_as_many_TS in Hf as (ys & -> & Hlen).
      exists u, p, r, rest, data, items, ys. repeat split; assumption.
    + apply JS_searchRepos_inv in Hrun
        as (u & p & r & rest & data & total & items & mapped
            & Hu & Hup & Hb & Hi & Hf & ->).
      apply found_as_many_JS in Hf as (ys & Hys & Hlen).
      exists u, p, r, rest, data, items, ys. simpl. rewrite Hys.
      repeat split; assumption.
Qed.

Lemma list_repos_bounded_search_unbounded_witness :
  let run := TS.listRepos (Sample.list_args None (Some 2)) Sample.no_config
               (Sample.fresh Sample.operator_env
                  [Sample.answer_ok Sample.three_repos]) in
  let repos := VArr [Sample.repo_of "alpha" VNull;
                     Sample.repo_of "beta" (VStr "Go")] in
  fst run = Return (VObj [("total", VNum 2); ("repos", repos)])
  /\ js_length repos = Return (VNum 2)
  /\ 2 <= 2.
Proof.
  intros run repos. split; [reflexivity | split; [reflexivity|]].
  destruct list_repos_bounded_search_unbounded as (H & _ & _).
  apply (H (Sample.list_args None (Some 2)) Sample.no_config
           (Sample.fresh Sample.operator_env [Sample.answer_ok Sample.three_repos])
           (VObj [("total", VNum 2); ("repos", repos)]) (snd run) repos 2);
    [simpl; lia | reflexivity | reflexivity | reflexivity].
Defined.

(* ------------------------------------------------------------------ *)
(** *** The first line of a commit message *)

Lemma split_lf_first m : exists ps, split_lf m = first_line m :: ps.
Proof.
  induction m as [|c m [ps IH]]; simpl; [now exists []|].
  destruct (Ascii.eqb c LF); [eauto|]. rewrite IH. eauto.
Qed.

Lemma first_line_prefix m :
  exists rest,
    m = first_line m ++ rest
    /\ has_lf (first_line m) = false
    /\ (rest = "" \/ exists t, rest = String LF t).
Proof.
  induction m as [|c m (rest & Hm & Hlf & Hrest)]; simpl.
  - exists "". auto.
  - destruct (Ascii.eqb_spec c LF) as [-> | Hc].
    + exists (String LF m). simpl. eauto.
    + exists rest. simpl. rewrite <- Hm.
      apply Ascii.eqb_neq in Hc. rewrite Hc, Hlf. auto.
Qed.

Lemma js_first_line_spec v y :
  js_first_line v = Return y -> exists m, v = VStr m /\ y = VStr (first_line m).
Proof.
  destruct v; simpl; try discriminate. intros H. inversion H.
  destruct (split_lf_first s) as [ps ->]. eauto.
Qed.

Lemma shape_commit_message c y :
  TS.shape_commit c = Return y ->
  exists m, get2 c "commit" "message" = Return (VStr m)
            /\ get y "message" = Return (VStr (first_line m)).
Proof.
  intros H. unfold TS.shape_commit in H. invert_object H.
  match goal with
  | Hm : cbind (get2 _ "commit" "message") _ = _ |- _ =>
      apply cbind_inv in Hm as (raw & Hraw & Hm);
      apply js_first_line_spec in Hm as (m & -> & ->)
  end.
  exists m. split; [assumption | reflexivity].
Qed.

Lemma TS_getRecentActivity_inv args ctx p0 res p' :
  TS.getRecentActivity args ctx p0 = (Return res, p') ->
  exists u p r rest cs shaped,
    TS.getUsername ctx p0 = (Return u, p)
    /\ upstream p = Responds r :: rest
    /\ body_json r = Some (VArr cs)
    /\ map_c TS.shape_commit cs = Return shaped
    /\ res = VObj [("repo", VStr (to_str u ++ "/" ++ tpl (ra_repo args)));
                   ("commits", VArr shaped)].
Proof.
  intros H. unfold TS.getRecentActivity in H.
  invert_prefix H u p r rest Hu Hup.
  destruct (negb (ok r)); [discriminate H|].
  invert_step H. invert_step H.
  match goal with
  | Hm : js_map _ _ = Return _ |- _ =>
      apply js_map_array in Hm as (cs & shaped & -> & Hshaped & ->)
  end.
  unfold ret in H. inversion H; subst.
  do 6 eexists. repeat split; eassumption.
Qed.

(* ------------------------------------------------------------------ *)
(** *** The placeholder fields of search_repos *)

Lemma Forall2_Forall_r {A B} (R : A -> B -> Prop) (P : B -> Prop) l l' :
  Forall2 R l l' -> (forall x y, R x y -> P y) -> Forall P l'.
Proof. intros H HR. induction H; constructor; eauto. Qed.

Lemma shape_found_placeholders x y :
  TS.shape_found x = Return y -> placeholders y.
Proof.
  intros H. unfold TS.shape_found in H. invert_object H.
  repeat match goal with
         | Hr : Return _ = Return _ |- _ => inversion Hr; subst; clear Hr
         end.
  repeat split.
Qed.

(** C10.  Every repository the TypeScript search_repos returns has
    [forks] 0, [updated] the empty string and [private] false, whatever
    the upstream sent for it. *)
Theorem search_repos_placeholders args ctx p0 res p' :
  TS.searchRepos args ctx p0 = (Return res, p') ->
  exists found,
    get res "repos" = Return (VArr found)
    /\ Forall placeholders found.
Proof.
  intros Hrun.
  apply TS_searchRepos_inv in Hrun
    as (u & p & r & rest & data & total & items & found
        & _ & _ & _ & _ & Hf & ->).
  apply js_map_array in Hf as (l & ys & _ & Hys & ->).
  exists ys. split; [reflexivity|].
  apply map_c_Forall2 in Hys.
  exact (Forall2_Forall_r _ _ _ _ Hys shape_found_placeholders).
Qed.

Lemma search_repos_placeholders_witness :
  let run := TS.searchRepos (Sample.search_args "gears" None) Sample.no_config
               (Sample.fresh Sample.operator_env
                  [Sample.answer_ok Sample.found_two]) in
  exists res found,
    fst run = Return res
    /\ get res "repos" = Return (VArr found)
    /\ length found = 2%nat
    /\ Forall placeholders found.
Proof.
  intros run.
  pose (res := match fst run with Return v => v | Throw _ => VUndef end).
  assert (Hrun : run = (Return res, snd run)) by reflexivity.
  destruct (search_repos_placeholders _ _ _ _ _ Hrun) as (found & Hf & Hall).
  exists res, found. split; [reflexivity | split; [exact Hf | split; [|exact Hall]]].
  vm_compute in Hf. inversion Hf. reflexivity.
Defined.

(* ================================================================== *)
(** ** Further properties of the adapters *)
(* ================================================================== *)

(** *** Requests and the process *)

Lemma fetch_process q p :
  snd (fetch q p) = after_request p q (tl (upstream p)).
Proof. unfold fetch. destruct (upstream p) as [|[r|] rest]; reflexivity. Qed.

Lemma bind_Return_snd {A B} (c : M A) (k : A -> M B) p a p' :
  c p = (Return a, p') -> snd (bind c k p) = snd (k a p').
Proof. intros H. now rewrite (bind_Return _ _ _ _ _ H). Qed.

(** After its first step an adapter either stops (validation) or sends one
    request and only shapes the answer. *)
Ltac process_after_request ctx p :=
  let h := fresh "h" in
  let Hh := fresh "Hh" in
  destruct (getAuthHeaders_quiet ctx p) as [h Hh];
  rewrite ?authHeaders_same;
  rewrite (bind_Return _ _ _ _ _ Hh);
  rewrite bind_quiet_tail by (intro; solve_quiet);
  rewrite fetch_process.

Ltac unfold_handler :=
  unfold handler_of, TS.handler, JS.handler;
  cbv iota;
  match goal with
  | |- context [TS.listRepos] => unfold TS.listRepos
  | |- context [TS.getRepo] => unfold TS.getRepo
  | |- context [TS.checkCIStatus] => unfold TS.checkCIStatus
  | |- context [TS.getRecentActivity] => unfold TS.getRecentActivity
  | |- context [TS.createIssue] => unfold TS.createIssue
  | |- context [TS.createRepo] => unfold TS.createRepo
  | |- context [TS.createPullRequest] => unfold TS.createPullRequest
  | |- context [TS.searchRepos] => unfold TS.searchRepos
  | |- context [JS.listRepos] => unfold JS.listRepos
  | |- context [JS.getRepo] => unfold JS.getRepo
  | |- context [JS.checkCIStatus] => unfold JS.checkCIStatus
  | |- context [JS.getRecentActivity] => unfold JS.getRecentActivity
  | |- context [JS.createIssue] => unfold JS.createIssue
  | |- context [JS.createRepo] => unfold JS.createRepo
  | |- context [JS.createPullRequest] => unfold JS.createPullRequest
  | |- context [JS.searchRepos] => unfold JS.searchRepos
  end;
  rewrite ?getUsername_same.

Lemma handler_after_resolution ts a ctx p0 u p :
  resolution a ctx p0 = (Return u, p) ->
  passes_validation ts a u = true ->
  exists h q,
    TS.getAuthHeaders ctx p = (Return h, p)
    /\ snd (handler_of ts a ctx p0) = after_request p q (tl (upstream p))
    /\ hdrs q = h
    /\ ~ is_lookup q.
Proof.
  intros Hres Hval.
  destruct ts, a as [args|args|args|args|args|args|args|args];
    unfold resolution, keyed_by_user in Hres; cbv iota in Hres;
    simpl passes_validation in Hval;
    try (unfold ret in Hres; inversion Hres; subst p0; clear Hres);
    unfold_handler.
  all: try (rewrite (bind_Return _ _ _ _ _ Hres)).
  all: cbv beta zeta.
  all: try rewrite Hval; try (rewrite (validation_pull_request _ _ _ _ Hval)).
  all: cbn [negb]; cbv iota.
  all: process_after_request ctx p.
  all: eexists; eexists; split; [eassumption | split; [reflexivity|]].
  all: split; [reflexivity|].
  all: unfold is_lookup, GET, POST, GITHUB_API; cbn [meth url String.append];
    intros [Hm Hu]; try discriminate Hm; discriminate Hu.
Qed.

Lemma handler_validation_fails ts a ctx p0 u p :
  resolution a ctx p0 = (Return u, p) ->
  passes_validation ts a u = false ->
  handler_of ts a ctx p0 = (Throw (Error (validation_message a)), p).
Proof.
  intros Hres Hval.
  destruct ts, a as [args|args|args|args|args|args|args|args];
    simpl passes_validation in Hval; try discriminate Hval;
    unfold resolution, keyed_by_user in Hres; cbv iota in Hres;
    unfold_handler.
  all: rewrite (bind_Return _ _ _ _ _ Hres); cbv beta zeta.
  all: try (rewrite Hval; reflexivity).
  all: match goal with
       | |- (if ?b then _ else _) _ = _ =>
           replace b with true; [reflexivity|]
       end.
  all: symmetry;
    repeat match type of Hval with
           | _ && _ = false => apply andb_false_iff in Hval as [Hval | Hval]
           end;
    rewrite Hval; cbn [negb orb]; rewrite ?orb_true_r; reflexivity.
Qed.

Lemma handler_resolution_fails ts a ctx p0 e p :
  resolution a ctx p0 = (Throw e, p) ->
  handler_of ts a ctx p0 = (Throw e, p).
Proof.
  intros Hres.
  destruct ts, a as [args|args|args|args|args|args|args|args];
    unfold resolution, keyed_by_user in Hres; cbv iota in Hres;
    try (unfold ret in Hres; discriminate Hres);
    unfold_handler.
  all: now rewrite (bind_Throw _ _ _ _ _ Hres).
Qed.

Lemma getUsername_available ctx p :
  truthy_str (GITHUB_USERNAME (env p))
  || truthy_str (username (github_config ctx))
  || truthy (cachedUser p) = true ->
  exists u, TS.getUsername ctx p = (Return u, p).
Proof.
  intros H.
  destruct (truthy_str (GITHUB_USERNAME (env p))) eqn:He.
  { apply truthy_str_true in He as [s Hs]. exists (VStr s).
    exact (getUsername_env ctx p s Hs). }
  apply truthy_str_false in He.
  destruct (truthy_str (username (github_config ctx))) eqn:Hc.
  { apply truthy_str_true in Hc as [s Hs]. exists (VStr s).
    exact (getUsername_config ctx p s He Hs). }
  apply truthy_str_false in Hc. simpl in H. exists (cachedUser p).
  exact (getUsername_cached ctx p He Hc H).
Qed.

Lemma getUsername_process ctx p :
  exists looked,
    sent (snd (TS.getUsername ctx p)) = (sent p ++ looked)%list
    /\ (length looked <= 1)%nat
    /\ Forall is_lookup looked
    /\ upstream (snd (TS.getUsername ctx p)) = skipn (length looked) (upstream p)
    /\ env (snd (TS.getUsername ctx p)) = env p.
Proof.
  destruct (truthy_str (GITHUB_USERNAME (env p))
            || truthy_str (username (github_config ctx))
            || truthy (cachedUser p)) eqn:Hav.
  { destruct (getUsername_available ctx p Hav) as [u ->].
    exists []. simpl. rewrite app_nil_r. auto. }
  apply orb_false_iff in Hav as [Hav Ht].
  apply orb_false_iff in Hav as [He Hc].
  apply truthy_str_false in He. apply truthy_str_false in Hc.
  destruct (getUsername_lookup ctx p He Hc Ht) as (h & _ & ->).
  exists [GET (GITHUB_API ++ "/user") h].
  destruct (upstream p) as [|[r|] rest];
    [ | destruct (body_json r) as [data|];
        [destruct (get data "login")|] | ];
    simpl; (split; [reflexivity | split; [lia | split; [|split; reflexivity]]]);
    repeat constructor.
Qed.

Lemma resolution_process a ctx p :
  exists looked,
    sent (snd (resolution a ctx p)) = (sent p ++ looked)%list
    /\ (length looked <= 1)%nat
    /\ Forall is_lookup looked
    /\ upstream (snd (resolution a ctx p)) = skipn (length looked) (upstream p)
    /\ env (snd (resolution a ctx p)) = env p.
Proof.
  unfold resolution. destruct (keyed_by_user a); [apply getUsername_process|].
  exists []. simpl. rewrite app_nil_r. auto.
Qed.

(** What an adapter adds to the process that its first step leaves. *)
Lemma handler_own_request ts a ctx p :
  exists own,
    sent (snd (handler_of ts a ctx p))
    = (sent (snd (resolution a ctx p)) ++ own)%list
    /\ (length own <= 1)%nat
    /\ Forall (fun q => ~ is_lookup q) own
    /\ upstream (snd (handler_of ts a ctx p))
       = skipn (length own) (upstream (snd (resolution a ctx p)))
    /\ env (snd (handler_of ts a ctx p)) = env (snd (resolution a ctx p))
    /\ cachedUser (snd (handler_of ts a ctx p))
       = cachedUser (snd (resolution a ctx p)).
Proof.
  destruct (resolution a ctx p) as [[u|e] p1] eqn:Hres.
  - destruct (passes_validation ts a u) eqn:Hval.
    + destruct (handler_after_resolution ts a ctx p u p1 Hres Hval)
        as (h & q & _ & -> & _ & Hq).
      exists [q]. simpl. repeat split; auto.
    + rewrite (handler_validation_fails ts a ctx p u p1 Hres Hval).
      exists []. simpl. rewrite app_nil_r. repeat split; auto.
  - rewrite (handler_resolution_fails ts a ctx p e p1 Hres).
    exists []. simpl. rewrite app_nil_r. repeat split; auto.
Qed.

(** X1.  Request budget of an action, in either rendering: it sends at most
    one identity lookup followed by at most one request of its own, each
    request consumes exactly one answer of the upstream, and the
    environment is left as it was. *)
Theorem handler_request_budget ts a ctx p :
  exists looked own,
    sent (snd (handler_of ts a ctx p)) = (sent p ++ looked ++ own)%list
    /\ (length looked <= 1)%nat
    /\ (length own <= 1)%nat
    /\ Forall is_lookup looked
    /\ Forall (fun q => ~ is_lookup q) own
    /\ upstream (snd (handler_of ts a ctx p))
       = skipn (length (looked ++ own)) (upstream p)
    /\ env (snd (handler_of ts a ctx p)) = env p.
Proof.
  destruct (resolution_process a ctx p) as (looked & Hs & Hl & Hlk & Hup & He).
  destruct (handler_own_request ts a ctx p) as (own & Hs' & Hl' & Hown & Hup' & He' & _).
  exists looked, own.
  rewrite Hs', Hs, Hup', Hup, He', He, app_assoc, skipn_skipn, length_app.
  repeat split; auto. f_equal. lia.
Qed.

(** X2.  When the username is supplied by the environment or the
    configuration, or a login is cached, no action sends the identity
    lookup: it sends at most its own request and leaves the cached login
    untouched. *)
Theorem known_username_needs_no_lookup ts a ctx p :
  truthy_str (GITHUB_USERNAME (env p))
  || truthy_str (username (github_config ctx))
  || truthy (cachedUser p) = true ->
  exists own,
    sent (snd (handler_of ts a ctx p)) = (sent p ++ own)%list
    /\ (length own <= 1)%nat
    /\ Forall (fun q => ~ is_lookup q) own
    /\ cachedUser (snd (handler_of ts a ctx p)) = cachedUser p.
Proof.
  intros Hav. destruct (getUsername_available ctx p Hav) as [u Hu].
  destruct (handler_own_request ts a ctx p) as (own & Hs & Hl & Hown & _ & _ & Hc).
  assert (Hp : snd (resolution a ctx p) = p).
  { unfold resolution. destruct (keyed_by_user a); [now rewrite Hu | reflexivity]. }
  rewrite Hp in Hs, Hc. exists own. auto.
Qed.

Lemma known_username_needs_no_lookup_witness :
  exists own,
    sent (snd (TS.listRepos (Sample.list_args None None) Sample.no_config
                 (Sample.fresh Sample.operator_env
                    [Sample.answer_ok Sample.three_repos])))
    = own
    /\ (length own <= 1)%nat
    /\ Forall (fun q => ~ is_lookup q) own.
Proof.
  destruct (known_username_needs_no_lookup true
              (list_repos (Sample.list_args None None)) Sample.no_config
              (Sample.fresh Sample.operator_env
                 [Sample.answer_ok Sample.three_repos]) eq_refl)
    as (own & Hs & Hl & Hn & _).
  exists own. repeat split; assumption.
Defined.

(** X3.  An action keyed by the acting user fails with the error of the
    username resolution whenever that resolution throws, and sends nothing
    after it; create_repo too, although it never uses the username. *)
Theorem failed_resolution_aborts_action ts a ctx p e p1 :
  keyed_by_user a = true ->
  TS.getUsername ctx p = (Throw e, p1) ->
  handler_of ts a ctx p = (Throw e, p1).
Proof.
  intros Hk Hu. apply handler_resolution_fails.
  unfold resolution. now rewrite Hk.
Qed.

Lemma failed_resolution_aborts_action_witness :
  TS.createRepo Sample.new_repo_args Sample.no_config
    (Sample.fresh Sample.no_env [Fails; Sample.answer_ok Sample.octocat])
  = (Throw NetworkError,
     snd (TS.getUsername Sample.no_config
            (Sample.fresh Sample.no_env [Fails; Sample.answer_ok Sample.octocat]))).
Proof.
  apply (failed_resolution_aborts_action true (create_repo Sample.new_repo_args));
    reflexivity.
Defined.

(** X4.  An action whose validation fails throws its validation message as
    soon as the username resolution has returned, and sends no request of
    its own: the process is the one the resolution left. *)
Theorem failed_validation_sends_nothing ts a ctx p0 u p :
  resolution a ctx p0 = (Return u, p) ->
  passes_validation ts a u = false ->
  handler_of ts a ctx p0 = (Throw (Error (validation_message a)), p).
Proof. exact (handler_validation_fails ts a ctx p0 u p). Qed.

Lemma failed_validation_sends_nothing_witness :
  JS.searchRepos (Sample.search_args "" None) Sample.no_config
    (Sample.fresh Sample.operator_env [Sample.answer_ok Sample.found_two])
  = (Throw (Error "Search query required"),
     Sample.fresh Sample.operator_env [Sample.answer_ok Sample.found_two]).
Proof.
  apply (failed_validation_sends_nothing false
           (search_repos (Sample.search_args "" None)) Sample.no_config
           _ (VStr "operator"));
    reflexivity.
Defined.

(** *** get_repo and check_ci_status *)

(** X5.  get_repo and check_ci_status never resolve the acting username:
    in any process, and in either rendering, they send exactly one GET to
    the URL built from the explicit owner/repo pair, with the
    authorization headers, consume one answer, and leave the cached login
    untouched. *)
Theorem explicit_actions_send_one_request ts a ctx p :
  keyed_by_user a = false ->
  exists h,
    TS.getAuthHeaders ctx p = (Return h, p)
    /\ snd (handler_of ts a ctx p)
       = after_request p (GET (explicit_url a) h) (tl (upstream p)).
Proof.
  intros Hk. destruct (getAuthHeaders_quiet ctx p) as [h Hh]. exists h.
  split; [exact Hh|].
  destruct ts, a as [args|args|args|args|args|args|args|args];
    try discriminate Hk; unfold_handler; cbv beta zeta;
    rewrite ?authHeaders_same, (bind_Return _ _ _ _ _ Hh);
    rewrite bind_quiet_tail by (intro; solve_quiet);
    apply fetch_process.
Qed.

Lemma explicit_actions_send_one_request_witness :
  exists h,
    snd (TS.getRepo Fixture.widget_repo Sample.no_config
           (Sample.fresh Sample.no_env [Sample.answer_ok Sample.octocat]))
    = after_request (Sample.fresh Sample.no_env [Sample.answer_ok Sample.octocat])
        (GET "https://api.github.com/repos/acme/widget" h) [].
Proof.
  destruct (explicit_actions_send_one_request true (get_repo Fixture.widget_repo)
              Sample.no_config
              (Sample.fresh Sample.no_env [Sample.answer_ok Sample.octocat])
              eq_refl) as (h & _ & H).
  exists h. exact H.
Defined.

Lemma substring0_prefix n s :
  exists rest, s = substring0 n s ++ rest.
Proof.
  unfold substring0. revert s. induction n as [|n IH]; intros s.
  - exists s. now destruct s.
  - destruct s as [|c s]; [now exists ""|].
    destruct (IH s) as [rest Hrest]. exists rest. simpl. now f_equal.
Qed.

Lemma substring0_exact n s :
  String.length (substring0 n s) = Nat.min n (String.length s).
Proof.
  unfold substring0. revert s. induction n as [|n IH]; intros [|c s]; simpl;
    try reflexivity. now rewrite IH.
Qed.

Lemma or_else_substring s :
  or_else (VStr (substring0 7 s)) (VStr "") = VStr (substring0 7 s).
Proof.
  unfold or_else. simpl. destruct (String.eqb_spec (substring0 7 s) "") as [-> | _];
    reflexivity.
Qed.

(** The commit of a normalized run against the raw [head_sha]. *)
Lemma shape_run_commit (ts : bool) run y :
  (if ts then TS.shape_run run else JS.shape_run run) = Return y ->
  (forall s, get run "head_sha" = Return (VStr s) ->
             get y "commit" = Return (VStr (substring0 7 s)))
  /\ (forall v, get run "head_sha" = Return v -> nullish v = true ->
                get y "commit" = Return (if ts then VStr "" else VUndef)).
Proof.
  intros H. destruct ts; [unfold TS.shape_run in H | unfold JS.shape_run in H];
    invert_object H;
    match goal with
    | Hc : cbind (get run "head_sha") _ = Return _ |- _ =>
        apply cbind_inv in Hc as (sha & Hsha & Hcommit)
    end.
  - apply cbind_inv in Hcommit as (c & Hc & Hor). inversion Hor; subst. clear Hor.
    split.
    + intros s Hs. rewrite Hs in Hsha. inversion Hsha; subst sha.
      simpl in Hc. inversion Hc; subst c. simpl. now rewrite or_else_substring.
    + intros x Hx Hn. rewrite Hx in Hsha. inversion Hsha; subst sha.
      rewrite Hn in Hc. inversion Hc; subst c. reflexivity.
  - split.
    + intros s Hs. rewrite Hs in Hsha. inversion Hsha; subst sha.
      simpl in Hcommit. inversion Hcommit; subst. reflexivity.
    + intros x Hx Hn. rewrite Hx in Hsha. inversion Hsha; subst sha.
      rewrite Hn in Hcommit. inversion Hcommit; subst. reflexivity.
Qed.

Lemma checkCIStatus_inv ts args ctx p res p' :
  handler_of ts (check_ci_status args) ctx p = (Return res, p') ->
  exists r rest data wr runs,
    upstream p = Responds r :: rest
    /\ ok r = true
    /\ body_json r = Some data
    /\ get data "workflow_runs" = Return wr
    /\ (if ts then js_map (or_else wr (VArr [])) TS.shape_run
        else cbind (if nullish wr then Return VUndef else js_map wr JS.shape_run)
               (fun mapped => Return (or_else mapped (VArr []))))
       = Return runs
    /\ res = VObj [("repo", VStr (tpl (ci_owner args) ++ "/" ++ tpl (ci_repo args)));
                   ("runs", runs)].
Proof.
  intros H.
  destruct ts; unfold handler_of, TS.handler, JS.handler in H;
    [unfold TS.checkCIStatus in H | unfold JS.checkCIStatus in H];
    cbv beta zeta in H; rewrite ?authHeaders_same in H;
    apply bind_inv in H as (h & p1 & Hh & H);
    apply getAuthHeaders_inv in Hh; subst p1;
    apply bind_inv in H as (r & p1 & Hf & H);
    apply fetch_inv in Hf as (rest & Hup & ->);
    destruct (ok r) eqn:Hok; cbn [negb] in H; cbv iota in H;
    try discriminate H;
    invert_step H; invert_step H; invert_step H;
    unfold ret in H; inversion H; subst;
    do 5 eexists; repeat split; try eassumption.
  match goal with Hm : _ = Return ?m |- _ = Return (or_else ?m _) =>
    rewrite Hm end. reflexivity.
Qed.

(** X6.  When check_ci_status returns, [repo] is "owner/repo" and the runs
    are those of the upstream [workflow_runs], in order; the [commit] of a
    run is the first seven characters of its [head_sha], and for a missing
    or null [head_sha] it is the empty string in the TypeScript rendering
    and [undefined] in the JavaScript one. *)
Theorem ci_status_commits ts args ctx p res p' :
  handler_of ts (check_ci_status args) ctx p = (Return res, p') ->
  exists r rest data wr runs,
    upstream p = Responds r :: rest
    /\ body_json r = Some data
    /\ get data "workflow_runs" = Return wr
    /\ res = VObj [("repo", VStr (tpl (ci_owner args) ++ "/" ++ tpl (ci_repo args)));
                   ("runs", VArr runs)]
    /\ Forall2
         (fun run y =>
            (forall s, get run "head_sha" = Return (VStr s) ->
               get y "commit" = Return (VStr (substring0 7 s))
               /\ String.length (substring0 7 s) = Nat.min 7 (String.length s)
               /\ exists rest', s = substring0 7 s ++ rest')
            /\ (forall v, get run "head_sha" = Return v -> nullish v = true ->
                  get y "commit" = Return (if ts then VStr "" else VUndef)))
         (match wr with VArr l => l | _ => [] end) runs.
Proof.
  intros H.
  apply checkCIStatus_inv in H
    as (r & rest & data & wr & runs & Hup & _ & Hb & Hwr & Hruns & ->).
  assert (Hshape : exists ys,
             runs = VArr ys
             /\ Forall2 (fun run y =>
                           (if ts then TS.shape_run run else JS.shape_run run)
                           = Return y)
                        (match wr with VArr l => l | _ => [] end) ys).
  { destruct ts.
    - apply js_map_array in Hruns as (l & ys & Hl & Hys & ->).
      exists ys. split; [reflexivity|]. apply map_c_Forall2 in Hys.
      unfold or_else in Hl.
      destruct wr; simpl in Hl;
        repeat match type of Hl with
               | (if ?b then _ else _) = _ => destruct b
               end; try discriminate Hl; inversion Hl; subst; assumption.
    - apply cbind_inv in Hruns as (mapped & Hm & Hruns).
      inversion Hruns; subst runs. clear Hruns.
      destruct (nullish wr) eqn:Hn.
      + inversion Hm; subst mapped. exists []. split; [reflexivity|].
        destruct wr; try discriminate Hn; constructor.
      + apply js_map_array in Hm as (l & ys & -> & Hys & ->).
        exists ys. split; [reflexivity|]. now apply map_c_Forall2 in Hys. }
  destruct Hshape as (ys & -> & Hys).
  exists r, rest, data, wr, ys. repeat split; try assumption.
  revert Hys. apply Forall2_impl. intros run y Hy.
  apply shape_run_commit in Hy as [Hs Hn]. split; [|exact Hn].
  intros s Hsha. split; [now apply Hs|].
  split; [apply substring0_exact | apply substring0_prefix].
Qed.

Lemma ci_status_commits_witness :
  let res := VObj [("repo", VStr "acme/widget");
                   ("runs", VArr [VObj [("name", VStr "CI");
                                        ("status", VStr "completed");
                                        ("conclusion", VStr "success");
                                        ("branch", VStr "main");
                                        ("commit", VStr "0123456");
                                        ("created", VStr "2024-05-01T10:00:00Z");
                                        ("url", VStr "https://github.com/acme/widget/actions/runs/1")];
                                  VObj [("name", VStr "CI");
                                        ("status", VStr "completed");
                                        ("conclusion", VStr "success");
                                        ("branch", VStr "main");
                                        ("commit", VStr "");
                                        ("created", VStr "2024-05-01T10:00:00Z");
                                        ("url", VStr "https://github.com/acme/widget/actions/runs/1")]])] in
  exists r rest data wr runs,
    upstream (Sample.fresh Sample.no_env [Sample.answer_ok Fixture.two_runs])
    = Responds r :: rest
    /\ body_json r = Some data
    /\ get data "workflow_runs" = Return wr
    /\ res = VObj [("repo", VStr "acme/widget"); ("runs", VArr runs)]
    /\ length runs = 2%nat.
Proof.
  intros res.
  destruct (ci_status_commits true Fixture.widget_ci Sample.no_config
              (Sample.fresh Sample.no_env [Sample.answer_ok Fixture.two_runs])
              res
              (snd (TS.checkCIStatus Fixture.widget_ci Sample.no_config
                      (Sample.fresh Sample.no_env
                         [Sample.answer_ok Fixture.two_runs])))
              eq_refl)
    as (r & rest & data & wr & runs & Hup & Hb & Hwr & Hres & _).
  exists r, rest, data, wr, runs. repeat split; try assumption.
  inversion Hres. reflexivity.
Defined.

(** X7.  A success answer of check_ci_status without [workflow_runs]
    (missing or null) is not an error: both renderings return the
    "owner/repo" label with an empty list of runs. *)
Theorem ci_status_without_runs ts args ctx p r rest data wr :
  upstream p = Responds r :: rest ->
  ok r = true ->
  body_json r = Some data ->
  get data "workflow_runs" = Return wr ->
  nullish wr = true ->
  fst (handler_of ts (check_ci_status args) ctx p)
  = Return (VObj [("repo", VStr (tpl (ci_owner args) ++ "/" ++ tpl (ci_repo args)));
                  ("runs", VArr [])]).
Proof.
  intros Hup Hok Hb Hwr Hn.
  destruct (getAuthHeaders_quiet ctx p) as [h Hh].
  destruct ts; unfold_handler; cbv beta zeta;
    rewrite ?authHeaders_same, (bind_Return _ _ _ _ _ Hh);
    (erewrite bind_Return by (apply fetch_responds; exact Hup));
    rewrite Hok; cbn [negb]; cbv iota;
    unfold json; rewrite Hb;
    unfold bind, ret, lift; rewrite Hwr;
    destruct wr; try discriminate Hn; reflexivity.
Qed.

Lemma ci_status_without_runs_witness :
  fst (JS.checkCIStatus Fixture.widget_ci Sample.no_config
         (Sample.fresh Sample.no_env [Sample.answer_ok (VObj [("total_count", VNum 0)])]))
  = Return (VObj [("repo", VStr "acme/widget"); ("runs", VArr [])]).
Proof.
  apply (ci_status_without_runs false Fixture.widget_ci Sample.no_config _
           {| status := 200; body_json := Some (VObj [("total_count", VNum 0)]) |}
           [] (VObj [("total_count", VNum 0)]) VUndef);
    reflexivity.
Defined.

(** *** The requests of create_issue, create_repo and search_repos *)

Lemma lookup_set_field k k' x fs :
  lookup k (set_field k' x fs) = if String.eqb k k' then Some x else lookup k fs.
Proof.
  induction fs as [|[k1 v1] fs IH]; simpl; [reflexivity|].
  destruct (String.eqb_spec k' k1) as [-> | Hne]; simpl.
  - now destruct (String.eqb k k1).
  - rewrite IH. destruct (String.eqb_spec k k1) as [-> | _]; [|reflexivity].
    destruct (String.eqb_spec k1 k') as [E | _]; [|reflexivity].
    now elim Hne.
Qed.

Lemma lookup_app k l1 l2 :
  lookup k (l1 ++ l2)%list
  = match lookup k l1 with Some v => Some v | None => lookup k l2 end.
Proof.
  induction l1 as [|[k1 v1] l1 IH]; simpl; [reflexivity|].
  now destruct (String.eqb k k1).
Qed.

(** In [{ ...fs, ...extra }] a key of [extra] wins (its last binding), and
    every other key keeps the value it has in [fs]. *)
Lemma lookup_spread k fs extra :
  lookup k (spread fs extra)
  = match lookup k (rev extra) with Some v => Some v | None => lookup k fs end.
Proof.
  unfold spread. revert fs. induction extra as [|[k1 v1] extra IH]; intros fs;
    simpl; [reflexivity|].
  rewrite IH, lookup_app, lookup_set_field. simpl.
  destruct (lookup k (rev extra)); [reflexivity|].
  now destruct (String.eqb k k1).
Qed.

Lemma sent_after_first_step ts a ctx p0 u p :
  resolution a ctx p0 = (Return u, p) ->
  passes_validation ts a u = true ->
  exists q, sent (snd (handler_of ts a ctx p0)) = (sent p ++ [q])%list.
Proof.
  intros Hres Hval.
  destruct (handler_after_resolution ts a ctx p0 u p Hres Hval)
    as (h & q & _ & -> & _). now exists q.
Qed.

(** X8.  create_issue with a title sends one POST to
    /repos/<username>/<repo>/issues whose JSON body is the title and the
    body text (the empty string when omitted) merged with [extra]: a key of
    [extra] overrides title or body, every other key of [extra] is passed
    through, and nothing else is added. *)
Theorem create_issue_body_merges_extra ts args ctx p0 u p title :
  TS.getUsername ctx p0 = (Return u, p) ->
  supplies (is_title args) title ->
  exists h fs,
    TS.getAuthHeaders ctx p = (Return h, p)
    /\ sent (snd (handler_of ts (create_issue args) ctx p0))
       = (sent p
          ++ [{| meth := "POST";
                 url := GITHUB_API ++ "/repos/" ++ to_str u ++ "/"
                        ++ tpl (is_repo args) ++ "/issues";
                 hdrs := h;
                 body := Some (VObj fs) |}])%list
    /\ forall k,
         lookup k fs
         = match lookup k (rev (dflt [] (is_extra args))) with
           | Some v => Some v
           | None => lookup k [("title", VStr title);
                               ("body", or_else (str_val (is_body args)) (VStr ""))]
           end.
Proof.
  intros Hu Htitle. destruct (getAuthHeaders_quiet ctx p) as [h Hh].
  exists h, (spread [("title", VStr title);
                     ("body", or_else (str_val (is_body args)) (VStr ""))]
                    (dflt [] (is_extra args))).
  split; [exact Hh | split; [|intro k; apply lookup_spread]].
  destruct Htitle as [Ht Hne].
  assert (Htr : truthy_str (is_title args) = true)
    by (apply (truthy_str_supplies _ title); now split).
  destruct ts; unfold_handler;
    rewrite (bind_Return _ _ _ _ _ Hu); cbv beta zeta;
    rewrite Htr; cbn [negb]; cbv iota;
    rewrite ?authHeaders_same, (bind_Return _ _ _ _ _ Hh);
    rewrite bind_quiet_tail by (intro; solve_quiet);
    rewrite fetch_sent, Ht; reflexivity.
Qed.

Lemma create_issue_body_merges_extra_witness :
  exists h fs,
    sent (snd (TS.createIssue Fixture.labelled_issue Sample.no_config
                 (Sample.fresh Sample.operator_env [])))
    = [{| meth := "POST";
          url := "https://api.github.com/repos/operator/widget/issues";
          hdrs := h; body := Some (VObj fs) |}]
    /\ lookup "title" fs = Some (VStr "Gears slip badly")
    /\ lookup "body" fs = Some (VStr "")
    /\ lookup "labels" fs = Some (VArr [VStr "bug"])
    /\ lookup "assignees" fs = None.
Proof.
  destruct (create_issue_body_merges_extra true Fixture.labelled_issue
              Sample.no_config (Sample.fresh Sample.operator_env [])
              (VStr "operator") (Sample.fresh Sample.operator_env [])
              "Gears slip" eq_refl)
    as (h & fs & _ & Hs & Hk); [split; [reflexivity | discriminate]|].
  exists h, fs. split; [exact Hs|].
  rewrite !Hk. repeat split.
Defined.

(** X9.  create_repo with a name sends one POST to /user/repos whose body
    carries the name, the description (the empty string when omitted),
    [private] (false when omitted) and [auto_init] (true when omitted); the
    request is the same whatever username was resolved. *)
Theorem create_repo_request ts args ctx p0 u p name :
  TS.getUsername ctx p0 = (Return u, p) ->
  supplies (cr_name args) name ->
  exists h,
    TS.getAuthHeaders ctx p = (Return h, p)
    /\ sent (snd (handler_of ts (create_repo args) ctx p0))
       = (sent p
          ++ [{| meth := "POST";
                 url := GITHUB_API ++ "/user/repos";
                 hdrs := h;
                 body := Some (VObj
                   [("name", VStr name);
                    ("description", or_else (str_val (cr_description args)) (VStr ""));
                    ("private", VBool (dflt false (cr_private args)));
                    ("auto_init", VBool (dflt true (cr_auto_init args)))]) |}])%list.
Proof.
  intros Hu Hname. destruct (getAuthHeaders_quiet ctx p) as [h Hh].
  exists h. split; [exact Hh|].
  destruct Hname as [Hn Hne].
  assert (Htr : truthy_str (cr_name args) = true)
    by (apply (truthy_str_supplies _ name); now split).
  destruct ts; unfold_handler;
    rewrite (bind_Return _ _ _ _ _ Hu); cbv beta zeta;
    rewrite Htr; cbn [negb]; cbv iota;
    rewrite ?authHeaders_same, (bind_Return _ _ _ _ _ Hh);
    rewrite bind_quiet_tail by (intro; solve_quiet);
    rewrite fetch_sent, Hn; reflexivity.
Qed.

Lemma create_repo_request_witness :
  exists h,
    sent (snd (JS.createRepo Sample.new_repo_args Sample.no_config
                 (Sample.fresh Sample.operator_env [])))
    = [{| meth := "POST";
          url := "https://api.github.com/user/repos";
          hdrs := h;
          body := Some (VObj [("name", VStr "widget"); ("description", VStr "");
                              ("private", VBool false); ("auto_init", VBool true)]) |}].
Proof.
  destruct (create_repo_request false Sample.new_repo_args Sample.no_config
              (Sample.fresh Sample.operator_env []) (VStr "operator")
              (Sample.fresh Sample.operator_env []) "widget" eq_refl)
    as (h & _ & Hs); [split; [reflexivity | discriminate]|].
  exists h. exact Hs.
Defined.

(** *** The query of search_repos *)









(** *** The credential resolver, continued *)

(** X11.  The authorization headers never fail and never touch the
    process.  They always carry the GitHub media type as Accept and the
    fixed User-Agent; an Authorization header is present exactly when the
    environment or the configuration supplies a non-empty token, and then
    it is "token " followed by a supplied token; there is no other header. *)
Theorem auth_headers_shape ctx p :
  exists h,
    TS.getAuthHeaders ctx p = (Return h, p)
    /\ JS.authHeaders ctx p = (Return h, p)
    /\ header_value "Accept" h = Some "application/vnd.github.v3+json"
    /\ header_value "User-Agent" h = Some "OpenClaw-GitHub-Skill"
    /\ (header_value "Authorization" h = None <->
        absent_or_empty (GITHUB_TOKEN (env p))
        /\ absent_or_empty (token (github_config ctx)))
    /\ (forall v, header_value "Authorization" h = Some v ->
        exists t, v = "token " ++ t
                  /\ (supplies (GITHUB_TOKEN (env p)) t
                      \/ supplies (token (github_config ctx)) t))
    /\ (length h <= 3)%nat.
Proof.
  change (JS.authHeaders ctx p) with (TS.getAuthHeaders ctx p).
  unfold TS.getAuthHeaders, bind, process_env.
  destruct (truthy_str (GITHUB_TOKEN (env p))) eqn:He.
  - apply truthy_str_true in He as [t Ht]. rewrite (tpl_supplies _ _ Ht).
    eexists. split; [reflexivity|]. split; [reflexivity|]. simpl.
    repeat split; try lia; try discriminate.
    + intros [Ha _]. apply truthy_str_absent in Ha.
      rewrite (truthy_str_supplies _ _ Ht) in Ha. discriminate Ha.
    + intros v Hv. inversion Hv. eauto.
  - apply truthy_str_false in He.
    destruct (truthy_str (token (github_config ctx))) eqn:Hc.
    + apply truthy_str_true in Hc as [t Ht]. rewrite (tpl_supplies _ _ Ht).
      eexists. split; [reflexivity|]. split; [reflexivity|]. simpl.
      repeat split; try lia; try discriminate.
      * intros [_ Ha]. apply truthy_str_absent in Ha.
        rewrite (truthy_str_supplies _ _ Ht) in Ha. discriminate Ha.
      * intros v Hv. inversion Hv. eauto.
    + apply truthy_str_false in Hc.
      eexists. split; [reflexivity|]. split; [reflexivity|]. simpl.
      repeat split; try lia; try assumption. intros v Hv. discriminate Hv.
Qed.

Lemma getAuthHeaders_env ctx p p' h :
  env p = env p' ->
  TS.getAuthHeaders ctx p = (Return h, p) ->
  TS.getAuthHeaders ctx p' = (Return h, p').
Proof.
  unfold TS.getAuthHeaders, bind, process_env. intros <-.
  destruct (truthy_str (GITHUB_TOKEN (env p)));
    [|destruct (truthy_str (token (github_config ctx)))];
    intros H; inversion H; reflexivity.
Qed.

(** X12.  The identity lookup never looks at the status of its answer:
    whatever the status, the resolver returns and caches the [login] of the
    parsed body without throwing, [undefined] when the body has none.  A
    falsy login is not a cache hit: the next call sends the lookup again. *)
Theorem lookup_ignores_status ctx p r rest data login :
  absent_or_empty (GITHUB_USERNAME (env p)) ->
  absent_or_empty (username (github_config ctx)) ->
  truthy (cachedUser p) = false ->
  upstream p = Responds r :: rest ->
  body_json r = Some data ->
  get data "login" = Return login ->
  exists h,
    let q := GET (GITHUB_API ++ "/user") h in
    let p1 := with_cachedUser (after_request p q rest) login in
    TS.getAuthHeaders ctx p = (Return h, p)
    /\ TS.getUsername ctx p = (Return login, p1)
    /\ (truthy login = false ->
        sent (snd (TS.getUsername ctx p1)) = (sent p ++ [q; q])%list).
Proof.
  intros He Hc Ht Hup Hb Hl.
  destruct (getUsername_lookup ctx p He Hc Ht) as (h & Hh & Hrun).
  exists h. cbv zeta in *. rewrite Hup, Hb, Hl in Hrun.
  split; [exact Hh | split; [exact Hrun|]].
  intros Hfalsy.
  set (p1 := with_cachedUser
               (after_request p (GET (GITHUB_API ++ "/user") h) rest) login).
  destruct (getUsername_lookup ctx p1 He Hc Hfalsy) as (h' & Hh' & Hrun').
  assert (h' = h).
  { pose proof (getAuthHeaders_env ctx p p1 h eq_refl Hh) as H1.
    rewrite H1 in Hh'. now inversion Hh'. }
  subst h'. cbv zeta in Hrun'. rewrite Hrun'.
  assert (Hs : sent p1 = (sent p ++ [GET (GITHUB_API ++ "/user") h])%list)
    by reflexivity.
  destruct (upstream p1) as [|[r'|] rest'];
    [ | destruct (body_json r') as [d|]; [destruct (get d "login")|] | ];
    simpl; rewrite <- app_assoc; reflexivity.
Qed.

Lemma lookup_ignores_status_witness :
  exists p1,
    TS.getUsername Sample.no_config
      (Sample.fresh Sample.no_env
         [Sample.answer_status 401 Fixture.bad_credentials])
    = (Return VUndef, p1)
    /\ length (sent (snd (TS.getUsername Sample.no_config p1))) = 2%nat.
Proof.
  destruct (lookup_ignores_status Sample.no_config
              (Sample.fresh Sample.no_env
                 [Sample.answer_status 401 Fixture.bad_credentials])
              {| status := 401; body_json := Some Fixture.bad_credentials |} []
              Fixture.bad_credentials VUndef)
    as (h & _ & Hrun & Hagain);
    try reflexivity; try (left; reflexivity).
  eexists. split; [exact Hrun|].
  cbv zeta in Hagain. rewrite (Hagain eq_refl). reflexivity.
Defined.

(** *** The results of list_repos and search_repos *)

Lemma listRepos_inv ts args ctx p0 res p' :
  handler_of ts (list_repos args) ctx p0 = (Return res, p') ->
  exists u p r rest repos filtered sliced total returned,
    TS.getUsername ctx p0 = (Return u, p)
    /\ upstream p = Responds r :: rest
    /\ body_json r = Some repos
    /\ (if truthy_str (rl_language args)
        then js_filter repos (language_matches (tpl (rl_language args)))
        else Return repos) = Return filtered
    /\ js_slice filtered (if ts then dflt 30 (rl_limit args)
                          else num_or (rl_limit args) 30) = Return sliced
    /\ js_length sliced = Return total
    /\ (if ts then Return sliced else js_map sliced JS.shape_repo) = Return returned
    /\ res = VObj [("total", total); ("repos", returned)].
Proof.
  intros H. destruct ts; unfold handler_of, TS.handler, JS.handler in H.
  - apply TS_listRepos_inv in H
      as (u & p & r & rest & repos & filtered & sliced & total & H).
    exists u, p, r, rest, repos, filtered, sliced, total, sliced.
    intuition.
  - apply JS_listRepos_inv in H
      as (u & p & r & rest & repos & filtered & sliced & total & mapped & H).
    exists u, p, r, rest, repos, filtered, sliced, total, mapped.
    intuition.
Qed.

(** X13.  In the result of list_repos, [total] is the number of
    repositories returned (the length of [repos]), in either rendering. *)
Theorem list_repos_total_counts_repos ts args ctx p res p' :
  handler_of ts (list_repos args) ctx p = (Return res, p') ->
  exists repos total,
    get res "repos" = Return repos
    /\ get res "total" = Return total
    /\ js_length repos = Return total.
Proof.
  intros H.
  apply listRepos_inv in H
    as (u & p1 & r & rest & repos & filtered & sliced & total & returned
        & _ & _ & _ & _ & _ & Hlen & Hret & ->).
  exists returned, total. split; [reflexivity | split; [reflexivity|]].
  destruct ts.
  - inversion Hret; subst. exact Hlen.
  - apply js_map_array in Hret as (l & ys & -> & Hys & ->).
    apply map_c_length in Hys. simpl in *. now rewrite Hys.
Qed.

Lemma list_repos_total_counts_repos_witness :
  exists repos total,
    get (VObj [("total", VNum 2);
               ("repos", VArr [Sample.repo_of "alpha" VNull;
                               Sample.repo_of "beta" (VStr "Go")])]) "repos"
    = Return repos
    /\ total = VNum 2
    /\ js_length repos = Return total.
Proof.
  destruct (list_repos_total_counts_repos true (Sample.list_args None (Some 2))
              Sample.no_config
              (Sample.fresh Sample.operator_env
                 [Sample.answer_ok Sample.three_repos])
              (VObj [("total", VNum 2);
                     ("repos", VArr [Sample.repo_of "alpha" VNull;
                                     Sample.repo_of "beta" (VStr "Go")])])
              (snd (TS.listRepos (Sample.list_args None (Some 2)) Sample.no_config
                      (Sample.fresh Sample.operator_env
                         [Sample.answer_ok Sample.three_repos])))
              eq_refl)
    as (repos & total & Hr & Ht & Hl).
  exists repos, total. split; [exact Hr | split; [|exact Hl]].
  simpl in Ht. now inversion Ht.
Defined.

Lemma searchRepos_inv ts args ctx p0 res p' :
  handler_of ts (search_repos args) ctx p0 = (Return res, p') ->
  exists u p r rest data total found,
    TS.getUsername ctx p0 = (Return u, p)
    /\ upstream p = Responds r :: rest
    /\ body_json r = Some data
    /\ get data "total_count" = Return total
    /\ res = VObj [("total", total); ("repos", found)].
Proof.
  intros H.
  destruct ts; unfold handler_of, TS.handler, JS.handler in H;
    [unfold TS.searchRepos in H
    | unfold JS.searchRepos in H; rewrite getUsername_same in H];
    invert_prefix H u p r rest Hu Hup;
    (destruct (negb (ok r)); [discriminate H|]);
    invert_step H; invert_step H;
    invert_object H;
    do 7 eexists; repeat split; eassumption.
Qed.

(** X14.  In the result of search_repos, [total] is the upstream
    [total_count] as it is, not the number of repositories returned. *)
Theorem search_repos_total_is_upstream_count ts args ctx p0 res p' :
  handler_of ts (search_repos args) ctx p0 = (Return res, p') ->
  exists u p r rest data,
    TS.getUsername ctx p0 = (Return u, p)
    /\ upstream p = Responds r :: rest
    /\ body_json r = Some data
    /\ get res "total" = get data "total_count".
Proof.
  intros H.
  apply searchRepos_inv in H
    as (u & p & r & rest & data & total & found & Hu & Hup & Hb & Ht & ->).
  exists u, p, r, rest, data. rewrite Ht. repeat split; assumption.
Qed.

Lemma search_repos_total_is_upstream_count_witness :
  let p0 := Sample.fresh Sample.operator_env
              [Sample.answer_ok (VObj [("total_count", VNum 57);
                                       ("items", VArr [])])] in
  exists res,
    fst (JS.searchRepos (Sample.search_args "gears" None) Sample.no_config p0)
    = Return res
    /\ get res "total" = Return (VNum 57)
    /\ get res "repos" = Return (VArr []).
Proof.
  intros p0.
  pose (res := VObj [("total", VNum 57); ("repos", VArr [])]).
  destruct (search_repos_total_is_upstream_count false
              (Sample.search_args "gears" None) Sample.no_config p0 res
              (snd (JS.searchRepos (Sample.search_args "gears" None)
                      Sample.no_config p0)) eq_refl)
    as (u & p & r & rest & data & Hu & Hup & Hb & Ht).
  exists res. split; [reflexivity | split; [|reflexivity]].
  rewrite Ht. inversion Hu; subst. inversion Hup; subst. inversion Hb; subst.
  reflexivity.
Defined.

Lemma slice0_negative {A} e (l : list A) :
  e < 0 -> slice0 e l = firstn (length l - Z.to_nat (- e)) l.
Proof.
  intros He. unfold slice0, slice_count.
  destruct (Z.ltb_spec e 0); [|lia]. f_equal. lia.
Qed.

Lemma slice_count_zero len : slice_count len 0 = 0%nat.
Proof. unfold slice_count. simpl. lia. Qed.

(** X15.  Limits of list_repos that do not count.  With a limit of 0 the
    TypeScript rendering returns nothing ([total] 0), while the JavaScript
    rendering truncates to 30 as if no limit were given.  With a negative
    limit the TypeScript rendering drops that many repositories from the
    end of the (filtered) upstream list instead of returning none. *)
Theorem list_repos_degenerate_limits args ctx p0 res p' :
  (rl_limit args = Some 0 ->
   TS.listRepos args ctx p0 = (Return res, p') ->
   get res "total" = Return (VNum 0))
  /\ (rl_limit args = Some 0 ->
      JS.listRepos args ctx p0 = (Return res, p') ->
      exists u p r rest repos filtered sliced mapped,
        TS.getUsername ctx p0 = (Return u, p)
        /\ upstream p = Responds r :: rest
        /\ body_json r = Some repos
        /\ (if truthy_str (rl_language args)
            then js_filter repos (language_matches (tpl (rl_language args)))
            else Return repos) = Return filtered
        /\ js_slice filtered 30 = Return sliced
        /\ js_map sliced JS.shape_repo = Return mapped
        /\ get res "repos" = Return mapped)
  /\ (forall e, rl_limit args = Some e -> e < 0 ->
      rl_language args = None ->
      TS.listRepos args ctx p0 = (Return res, p') ->
      exists u p r rest repos,
        TS.getUsername ctx p0 = (Return u, p)
        /\ upstream p = Responds r :: rest
        /\ body_json r = Some repos
        /\ forall rs, repos = VArr rs ->
             get res "repos"
             = Return (VArr (firstn (length rs - Z.to_nat (- e)) rs))).
Proof.
  split; [|split].
  - intros Hlim H.
    apply TS_listRepos_inv in H
      as (u & p & r & rest & repos & filtered & sliced & total
          & _ & _ & _ & _ & Hs & Hl & ->).
    rewrite Hlim in Hs. simpl in Hs.
    destruct filtered; simpl in Hs; try discriminate Hs;
      inversion Hs; subst sliced; simpl in Hl; inversion Hl; simpl.
    + unfold str_slice0. rewrite slice_count_zero. now destruct s.
    + now rewrite slice0_length, slice_count_zero.
  - intros Hlim H.
    apply JS_listRepos_inv in H
      as (u & p & r & rest & repos & filtered & sliced & total & mapped
          & Hu & Hup & Hb & Hf & Hs & _ & Hm & ->).
    rewrite Hlim in Hs. simpl in Hs.
    exists u, p, r, rest, repos, filtered, sliced, mapped.
    repeat split; assumption.
  - intros e Hlim He Hlang H.
    apply TS_listRepos_inv in H
      as (u & p & r & rest & repos & filtered & sliced & total
          & Hu & Hup & Hb & Hf & Hs & _ & ->).
    rewrite Hlang in Hf. simpl in Hf. inversion Hf; subst filtered.
    rewrite Hlim in Hs. simpl in Hs.
    exists u, p, r, rest, repos. repeat split; try assumption.
    intros rs ->. simpl in Hs. inversion Hs. simpl.
    now rewrite slice0_negative.
Qed.

Lemma list_repos_degenerate_limits_witness :
  get (VObj [("total", VNum 0); ("repos", VArr [])]) "total" = Return (VNum 0).
Proof.
  destruct (list_repos_degenerate_limits (Sample.list_args None (Some 0))
              Sample.no_config
              (Sample.fresh Sample.operator_env
                 [Sample.answer_ok Sample.three_repos])
              (VObj [("total", VNum 0); ("repos", VArr [])])
              (snd (TS.listRepos (Sample.list_args None (Some 0)) Sample.no_config
                      (Sample.fresh Sample.operator_env
                         [Sample.answer_ok Sample.three_repos]))))
    as (H & _ & _).
  apply H; reflexivity.
Defined.

(** X16.  The language filter of list_repos ignores the case of the
    requested language: two requests that differ only in the case of a
    non-empty language behave identically, in either rendering. *)
Theorem list_repos_filter_ignores_case ts args ctx p l1 l2 :
  l1 <> "" -> l2 <> "" ->
  toLowerCase l1 = toLowerCase l2 ->
  handler_of ts (list_repos (with_language args (Some l1))) ctx p
  = handler_of ts (list_repos (with_language args (Some l2))) ctx p.
Proof.
  intros H1 H2 Hlow.
  assert (Ht1 : truthy_str (Some l1) = true)
    by (apply (truthy_str_supplies _ l1); now split).
  assert (Ht2 : truthy_str (Some l2) = true)
    by (apply (truthy_str_supplies _ l2); now split).
  assert (Hm : language_matches l1 = language_matches l2)
    by (unfold language_matches; now rewrite Hlow).
  destruct ts; unfold handler_of, TS.handler, JS.handler,
    TS.listRepos, JS.listRepos, with_language;
    cbn [rl_type rl_sort rl_direction rl_language rl_limit];
    rewrite Ht1, Ht2; cbn [tpl str_val to_str]; rewrite Hm; reflexivity.
Qed.

Lemma list_repos_filter_ignores_case_witness :
  TS.listRepos (Sample.list_args (Some "GO") None) Sample.no_config
    (Sample.fresh Sample.operator_env [Sample.answer_ok Sample.three_repos])
  = TS.listRepos (Sample.list_args (Some "go") None) Sample.no_config
      (Sample.fresh Sample.operator_env [Sample.answer_ok Sample.three_repos]).
Proof.
  apply (list_repos_filter_ignores_case true (Sample.list_args None None)
           Sample.no_config _ "GO" "go");
    [discriminate | discriminate | reflexivity].
Defined.

(** *** Success answers that cannot be shaped *)

(** X17.  A success answer whose body is not JSON makes every action throw
    a SyntaxError, and one whose body is [null] a TypeError; in both cases
    the request has been sent and answered (a write has happened upstream)
    and no partial result is returned. *)
Theorem success_with_unusable_body_throws ts a ctx p0 u p r rest :
  resolution a ctx p0 = (Return u, p) ->
  passes_validation ts a u = true ->
  upstream p = Responds r :: rest ->
  ok r = true ->
  (body_json r = None ->
   exists q, handler_of ts a ctx p0 = (Throw SyntaxError, after_request p q rest))
  /\ (body_json r = Some VNull ->
      exists q, handler_of ts a ctx p0 = (Throw TypeError, after_request p q rest)).
Proof.
  intros Hres Hval Hup Hok.
  split; intros Hb.
  all: destruct ts, a as [args|args|args|args|args|args|args|args];
    unfold resolution, keyed_by_user in Hres; cbv iota in Hres;
    simpl passes_validation in Hval;
    try (unfold ret in Hres; inversion Hres; subst p0; clear Hres);
    unfold_handler.
  all: try (rewrite (bind_Return _ _ _ _ _ Hres)).
  all: cbv beta zeta.
  all: try rewrite Hval; try (rewrite (validation_pull_request _ _ _ _ Hval)).
  all: cbn [negb]; cbv iota.
  all: run_to_answer ctx p Hup.
  all: rewrite Hok; cbn [negb]; cbv iota.
  all: unfold json; rewrite Hb.
  all: try (eexists; reflexivity).
  all: unfold bind, ret, lift; cbn [get js_map js_slice js_filter cbind object obj_fields].
  all: try (eexists; reflexivity).
  all: destruct (truthy_str (rl_language args)); eexists; reflexivity.
Qed.

Lemma success_with_unusable_body_throws_witness :
  exists q,
    TS.createIssue (Sample.issue_args (Some "Gears slip")) Sample.no_config
      (Sample.fresh Sample.operator_env
         [Responds {| status := 201; body_json := None |}])
    = (Throw SyntaxError,
       after_request (Sample.fresh Sample.operator_env
                        [Responds {| status := 201; body_json := None |}]) q []).
Proof.
  destruct (success_with_unusable_body_throws true
              (create_issue (Sample.issue_args (Some "Gears slip")))
              Sample.no_config
              (Sample.fresh Sample.operator_env
                 [Responds {| status := 201; body_json := None |}])
              (VStr "operator")
              (Sample.fresh Sample.operator_env
                 [Responds {| status := 201; body_json := None |}])
              {| status := 201; body_json := None |} []
              eq_refl eq_refl eq_refl eq_refl) as [H _].
  exact (H eq_refl).
Defined.


(** *** get_repo on any body *)

Lemma get_field data k : nullish data = false -> get data k = Return (field data k).
Proof. unfold field. destruct data; simpl; try discriminate; reflexivity. Qed.

(** X18.  get_repo does not check the shape of a success body: for every
    parsed body other than [null] it returns the fourteen normalized
    fields, each the upstream field of the documented name when the body
    has it and [undefined] otherwise, in both renderings alike. *)
Theorem get_repo_projects_any_body ts args ctx p r rest data :
  upstream p = Responds r :: rest ->
  ok r = true ->
  body_json r = Some data ->
  nullish data = false ->
  fst (handler_of ts (get_repo args) ctx p)
  = Return (VObj [("name", field data "name");
                  ("full_name", field data "full_name");
                  ("description", field data "description");
                  ("stars", field data "stargazers_count");
                  ("forks", field data "forks_count");
                  ("watchers", field data "watchers_count");
                  ("language", field data "language");
                  ("open_issues", field data "open_issues_count");
                  ("created", field data "created_at");
                  ("updated", field data "updated_at");
                  ("pushed", field data "pushed_at");
                  ("url", field data "html_url");
                  ("default_branch", field data "default_branch");
                  ("private", field data "private")]).
Proof.
  intros Hup Hok Hb Hn.
  destruct (getAuthHeaders_quiet ctx p) as [h Hh].
  destruct ts; unfold_handler; cbv beta zeta;
    rewrite ?authHeaders_same, (bind_Return _ _ _ _ _ Hh);
    (erewrite bind_Return by (apply fetch_responds; exact Hup));
    rewrite Hok; cbn [negb]; cbv iota;
    unfold json; rewrite Hb;
    unfold bind, ret, lift, object; cbn [obj_fields];
    rewrite !(get_field data _ Hn); reflexivity.
Qed.

Lemma get_repo_projects_any_body_witness :
  fst (TS.getRepo Fixture.widget_repo Sample.no_config
         (Sample.fresh Sample.no_env [Sample.answer_ok (VArr [])]))
  = Return (VObj [("name", VUndef); ("full_name", VUndef);
                  ("description", VUndef); ("stars", VUndef);
                  ("forks", VUndef); ("watchers", VUndef);
                  ("language", VUndef); ("open_issues", VUndef);
                  ("created", VUndef); ("updated", VUndef);
                  ("pushed", VUndef); ("url", VUndef);
                  ("default_branch", VUndef); ("private", VUndef)]).
Proof.
  apply (get_repo_projects_any_body true Fixture.widget_repo Sample.no_config _
           {| status := 200; body_json := Some (VArr []) |} [] (VArr []));
    reflexivity.
Defined.

(** *** get_recent_activity *)

Lemma map_c_throws {A B} (f : A -> completion B) l x e :
  In x l -> f x = Throw e -> exists e', map_c f l = Throw e'.
Proof.
  induction l as [|y l IH]; simpl; [contradiction|].
  intros [-> | Hin] Hx.
  - rewrite Hx. simpl. eauto.
  - destruct (f y) as [b|e0]; simpl; [|eauto].
    destruct (IH Hin Hx) as [e' ->]. simpl. eauto.
Qed.

Lemma shape_commit_sha c y :
  TS.shape_commit c = Return y ->
  exists s, get c "sha" = Return (VStr s)
            /\ get y "sha" = Return (VStr (substring0 7 s)).
Proof.
  intros H. unfold TS.shape_commit in H. invert_object H.
  match goal with
  | Hs : cbind (get _ "sha") _ = _ |- _ =>
      apply cbind_inv in Hs as (sha & Hsha & Hsub)
  end.
  destruct sha; simpl in Hsub; try discriminate Hsub. inversion Hsub; subst.
  eexists. split; [eassumption | reflexivity].
Qed.

Lemma shape_commit_null c : nullish c = true -> TS.shape_commit c = Throw TypeError.
Proof. destruct c; try discriminate; reflexivity. Qed.

Lemma shape_commit_needs_author c v :
  get2 c "commit" "author" = Return v -> nullish v = true ->
  exists e, TS.shape_commit c = Throw e.
Proof.
  intros Hv Hn. unfold get2 in Hv. apply cbind_inv in Hv as (x & Hx & Hv).
  assert (Ha : get3 c "commit" "author" "name" = Throw TypeError).
  { unfold get3, get2. rewrite Hx. simpl. rewrite Hv. simpl.
    destruct v; try discriminate Hn; reflexivity. }
  unfold TS.shape_commit, object. cbn [obj_fields]. rewrite Ha.
  destruct (cbind (get c "sha") (fun s => js_substring0 s 7)); simpl; [|eauto].
  destruct (cbind (get2 c "commit" "message") js_first_line); simpl; eauto.
Qed.

(** X19.  get_recent_activity is all or nothing.  With a repository name
    and a success answer that is a list of commits, a single commit that
    is [null] or has no [commit.author] makes the whole action throw; when
    it returns, it returns exactly one entry per upstream commit, in
    order, labelled "<username>/<repo>", and each [sha] is the first seven
    characters of the upstream one. *)
Theorem recent_activity_all_or_nothing ts args ctx p0 u p r rest cs repo :
  TS.getUsername ctx p0 = (Return u, p) ->
  supplies (ra_repo args) repo ->
  upstream p = Responds r :: rest ->
  ok r = true ->
  body_json r = Some (VArr cs) ->
  (forall c, In c cs ->
     nullish c = true
     \/ (exists v, get2 c "commit" "author" = Return v /\ nullish v = true) ->
     exists e, fst (handler_of ts (get_recent_activity args) ctx p0) = Throw e)
  /\ (forall res,
        fst (handler_of ts (get_recent_activity args) ctx p0) = Return res ->
        exists shaped,
          res = VObj [("repo", VStr (to_str u ++ "/" ++ repo));
                      ("commits", VArr shaped)]
          /\ length shaped = length cs
          /\ Forall2 (fun c y =>
                        exists s, get c "sha" = Return (VStr s)
                                  /\ get y "sha" = Return (VStr (substring0 7 s)))
                     cs shaped).
Proof.
  intros Hu Hrepo Hup Hok Hb.
  assert (Hrun : fst (handler_of ts (get_recent_activity args) ctx p0)
                 = match map_c TS.shape_commit cs with
                   | Return shaped =>
                       Return (VObj [("repo", VStr (to_str u ++ "/" ++ repo));
                                     ("commits", VArr shaped)])
                   | Throw e => Throw e
                   end).
  { destruct (getAuthHeaders_quiet ctx p) as [h Hh].
    rewrite <- (tpl_supplies _ _ Hrepo).
    destruct ts; unfold_handler;
      rewrite (bind_Return _ _ _ _ _ Hu); cbv beta zeta;
      rewrite (truthy_str_supplies _ _ Hrepo); cbn [negb]; cbv iota;
      rewrite ?authHeaders_same, (bind_Return _ _ _ _ _ Hh);
      (erewrite bind_Return by (apply fetch_responds; exact Hup));
      rewrite Hok; cbn [negb]; cbv iota;
      unfold json; rewrite Hb;
      unfold bind, ret, lift; cbn [js_map];
      change JS.shape_commit with TS.shape_commit;
      destruct (map_c TS.shape_commit cs); reflexivity. }
  rewrite Hrun. split.
  - intros c Hin Hbad.
    assert (Hc : exists e, TS.shape_commit c = Throw e).
    { destruct Hbad as [Hn | (v & Hv & Hn)];
        [rewrite (shape_commit_null c Hn); eauto
        | exact (shape_commit_needs_author c v Hv Hn)]. }
    destruct Hc as [e Hc].
    destruct (map_c_throws _ _ _ _ Hin Hc) as [e' ->]. eauto.
  - intros res Hres.
    destruct (map_c TS.shape_commit cs) as [shaped|e] eqn:Hm; [|discriminate Hres].
    inversion Hres; subst res. exists shaped.
    split; [reflexivity | split; [exact (map_c_length _ _ _ Hm)|]].
    apply map_c_Forall2 in Hm. revert Hm. apply Forall2_impl.
    exact shape_commit_sha.
Qed.

Lemma recent_activity_all_or_nothing_witness :
  exists e,
    fst (TS.getRecentActivity Sample.activity_args Sample.no_config
           (Sample.fresh Sample.operator_env
              [Sample.answer_ok
                 (VArr [Sample.commit_of Fixture.sha40 "fix";
                        Fixture.commit_without_author])]))
    = Throw e.
Proof.
  destruct (recent_activity_all_or_nothing true Sample.activity_args
              Sample.no_config
              (Sample.fresh Sample.operator_env
                 [Sample.answer_ok
                    (VArr [Sample.commit_of Fixture.sha40 "fix";
                           Fixture.commit_without_author])])
              (VStr "operator")
              (Sample.fresh Sample.operator_env
                 [Sample.answer_ok
                    (VArr [Sample.commit_of Fixture.sha40 "fix";
                           Fixture.commit_without_author])])
              {| status := 200;
                 body_json := Some (VArr [Sample.commit_of Fixture.sha40 "fix";
                                          Fixture.commit_without_author]) |}
              []
              [Sample.commit_of Fixture.sha40 "fix"; Fixture.commit_without_author]
              "widget" eq_refl)
    as [H _]; try reflexivity; [split; [reflexivity | discriminate]|].
  apply (H Fixture.commit_without_author).
  - right. left. reflexivity.
  - right. exists VUndef. split; reflexivity.
Defined.

(* ================================================================== *)
(** ** The language filter of list_repos *)
(* ================================================================== *)













(* ================================================================== *)
(** ** The first line of the commit messages of get_recent_activity *)
(* ================================================================== *)

Lemma shape_commit_ok c :
  commit_ok c = true ->
  exists sha m a,
    get c "sha" = Return (VStr sha)
    /\ get2 c "commit" "message" = Return (VStr m)
    /\ TS.shape_commit c
       = Return (VObj [("sha", VStr (substring0 7 sha));
                       ("message", VStr (first_line m));
                       ("author", field a "name");
                       ("date", field a "date");
                       ("url", field c "html_url")]).
Proof.
  unfold commit_ok. intros H.
  destruct (get c "sha") as [[| | | |sha| |]|] eqn:Hsha; try discriminate H.
  destruct (get2 c "commit" "message") as [[| | | |m| |]|] eqn:Hm;
    try discriminate H.
  destruct (get2 c "commit" "author") as [a|] eqn:Ha; try discriminate H.
  apply negb_true_iff in H.
  exists sha, m, a. split; [reflexivity | split; [reflexivity|]].
  assert (Hc : nullish c = false) by (destruct c; try discriminate Hsha; reflexivity).
  unfold TS.shape_commit, object. cbn [obj_fields].
  rewrite Hsha, Hm. cbn [cbind js_substring0 js_first_line].
  destruct (split_lf_first m) as [ps ->]. cbn [index0].
  unfold get3. unfold get2 in Ha.
  destruct (get c "commit") as [x|] eqn:Hx; [|discriminate Ha].
  cbn [cbind] in Ha |- *. unfold get2. rewrite Ha. cbn [cbind].
  rewrite !(get_field a _ H), (get_field c _ Hc). reflexivity.
Qed.

Lemma shape_commit_returns_ok c y :
  TS.shape_commit c = Return y -> commit_ok c = true.
Proof.
  intros H. unfold TS.shape_commit in H. invert_object H.
  repeat match goal with
         | Hc : cbind _ _ = Return _ |- _ =>
             let x := fresh "x" in
             let Hx := fresh "Hx" in
             apply cbind_inv in Hc as (x & Hx & Hc)
         end.
  unfold commit_ok.
  match goal with
  | Hs : get c "sha" = Return ?s, Hsub : js_substring0 ?s 7 = _ |- _ =>
      rewrite Hs; destruct s; try discriminate Hsub
  end.
  match goal with
  | Hm : get2 c "commit" "message" = Return ?m, Hl : js_first_line ?m = _ |- _ =>
      rewrite Hm; destruct m; try discriminate Hl
  end.
  match goal with
  | Ha : get3 c "commit" "author" "name" = Return _ |- _ =>
      unfold get3 in Ha; apply cbind_inv in Ha as (cm & Hcm & Ha);
      unfold get2 in Ha; apply cbind_inv in Ha as (a & Hau & Ha)
  end.
  unfold get2. rewrite Hcm. cbn [cbind]. rewrite Hau.
  match goal with
  | Hn : get ?au "name" = Return _ |- _ =>
      destruct au; try discriminate Hn; reflexivity
  end.
Qed.

(** C9.  For every get_recent_activity invocation with a repository name
    whose request is answered by a success status and a list of commits:
    the action returns exactly when every commit can be normalized, and
    then it returns one normalized commit per upstream commit, in order,
    whose [message] is the first line of the raw upstream message, that is
    its prefix up to, and excluding, the first line feed.  Both renderings
    are the same function. *)
Theorem recent_activity_first_line (ts : bool) args ctx p0 u p r rest cs repo :
  TS.getUsername ctx p0 = (Return u, p) ->
  supplies (ra_repo args) repo ->
  upstream p = Responds r :: rest ->
  ok r = true ->
  body_json r = Some (VArr cs) ->
  (Forall (fun c => commit_ok c = true) cs ->
   exists res shaped,
     fst (handler_of ts (get_recent_activity args) ctx p0) = Return res
     /\ get res "commits" = Return (VArr shaped)
     /\ Forall2 (fun c y =>
                   exists m, get2 c "commit" "message" = Return (VStr m)
                             /\ get y "message" = Return (VStr (first_line m)))
                cs shaped)
  /\ (forall res,
        fst (handler_of ts (get_recent_activity args) ctx p0) = Return res ->
        Forall (fun c => commit_ok c = true) cs)
  /\ (forall m, exists rest',
        m = first_line m ++ rest'
        /\ has_lf (first_line m) = false
        /\ (rest' = "" \/ exists t, rest' = String LF t))
  /\ JS.getRecentActivity args ctx = TS.getRecentActivity args ctx.
Proof.
  intros Hu Hrepo Hup Hok Hb.
  assert (Hrun : fst (handler_of ts (get_recent_activity args) ctx p0)
                 = match map_c TS.shape_commit cs with
                   | Return shaped =>
                       Return (VObj [("repo", VStr (to_str u ++ "/" ++ repo));
                                     ("commits", VArr shaped)])
                   | Throw e => Throw e
                   end).
  { destruct (getAuthHeaders_quiet ctx p) as [h Hh].
    rewrite <- (tpl_supplies _ _ Hrepo).
    destruct ts; unfold_handler;
      rewrite (bind_Return _ _ _ _ _ Hu); cbv beta zeta;
      rewrite (truthy_str_supplies _ _ Hrepo); cbn [negb]; cbv iota;
      rewrite ?authHeaders_same, (bind_Return _ _ _ _ _ Hh);
      (erewrite bind_Return by (apply fetch_responds; exact Hup));
      rewrite Hok; cbn [negb]; cbv iota;
      unfold json; rewrite Hb;
      unfold bind, ret, lift; cbn [js_map];
      change JS.shape_commit with TS.shape_commit;
      destruct (map_c TS.shape_commit cs); reflexivity. }
  rewrite Hrun.
  split; [|split; [|split; [exact first_line_prefix | reflexivity]]].
  - intros Hall.
    assert (Hmap : exists shaped,
               map_c TS.shape_commit cs = Return shaped
               /\ Forall2 (fun c y =>
                             exists m, get2 c "commit" "message" = Return (VStr m)
                                       /\ get y "message"
                                          = Return (VStr (first_line m)))
                          cs shaped).
    { clear Hrun Hb. induction Hall as [|c cs' Hc _ (shaped & Hs & Hf)].
      - exists []. split; [reflexivity | constructor].
      - destruct (shape_commit_ok c Hc) as (sha & m & a & _ & Hm & Hy).
        eexists. simpl. rewrite Hy, Hs. simpl. split; [reflexivity|].
        constructor; [|exact Hf]. exists m. split; [exact Hm | reflexivity]. }
    destruct Hmap as (shaped & Hs & Hf). rewrite Hs.
    eexists; exists shaped. split; [reflexivity | split; [reflexivity | exact Hf]].
  - intros res Hres.
    destruct (map_c TS.shape_commit cs) as [shaped|e] eqn:Hm; [|discriminate Hres].
    apply map_c_Forall2 in Hm. clear Hrun Hb Hres.
    induction Hm as [|c y cs' ys Hcy _ IH]; constructor; [|exact IH].
    exact (shape_commit_returns_ok c y Hcy).
Qed.

Lemma recent_activity_first_line_witness :
  let p0 := Sample.fresh Sample.operator_env
              [Sample.answer_ok
                 (VArr [Sample.commit_of "0123456789abcdef" Sample.fix_bug_message])] in
  exists res y,
    fst (TS.getRecentActivity Sample.activity_args Sample.no_config p0) = Return res
    /\ get res "commits" = Return (VArr [y])
    /\ get y "message" = Return (VStr "fix bug").
Proof.
  intros p0.
  destruct (recent_activity_first_line true Sample.activity_args Sample.no_config
              p0 (VStr "operator") p0
              {| status := 200;
                 body_json := Some (VArr [Sample.commit_of "0123456789abcdef"
                                            Sample.fix_bug_message]) |}
              []
              [Sample.commit_of "0123456789abcdef" Sample.fix_bug_message]
              "widget")
    as (Hrun & _); try reflexivity; [split; [reflexivity | discriminate]|].
  destruct Hrun as (res & shaped & Hres & Hcommits & Hf);
    [repeat constructor|].
  inversion Hf as [|c y cs ys (m & Hm & Hy) Hrest]; subst.
  inversion Hrest; subst.
  exists res, y. split; [exact Hres | split; [exact Hcommits|]].
  inversion Hm; subst m. exact Hy.
Defined.
